(** * Waitlist worker: a shallow embedding of [src/worker.ts]

  The worker accepts an email (and an optional free-text use case) over
  HTTP, validates it, throttles by IP and UTC calendar day, and upserts
  one row per lowercase email into the [waitlist_entries] table.

  Conventions of the embedding:
  - a JavaScript string is a [string] whose characters are its UTF-16
    code units; the model covers the code units U+0000..U+00FF;
  - a [Date] is its time value, an integer number of milliseconds since
    the epoch ([Z]);
  - the handler threads the table explicitly: it takes the store before
    the request and returns the response with the store afterwards;
  - the runtime's decoders ([request.json()], [request.formData()]) and
    the clock ([new Date()]) are inputs of the handler. *)

From Stdlib Require Import ZArith String Ascii List Bool Lia.
From stdpp Require Import base option gmap strings list pretty.

Local Open Scope string_scope.
Local Open Scope Z_scope.

(** ** JavaScript strings *)

Module JsString.

(** [WhiteSpace] and [LineTerminator] code units below U+0100: TAB, LF,
    VT, FF, CR, SP and NBSP. These are what [String.prototype.trim] and
    [parseInt] skip. *)
Definition isWhiteSpace (c : ascii) : bool :=
  let n := N_of_ascii c in
  ((9 <=? n) && (n <=? 13) || (n =? 32) || (n =? 160))%N.

Fixpoint trimStart (s : string) : string :=
  match s with
  | String c r => if isWhiteSpace c then trimStart r else s
  | EmptyString => EmptyString
  end.

Fixpoint trimEnd (s : string) : string :=
  match s with
  | String c r =>
      match trimEnd r with
      | EmptyString => if isWhiteSpace c then EmptyString else String c EmptyString
      | r' => String c r'
      end
  | EmptyString => EmptyString
  end.

Definition trim (s : string) : string := trimEnd (trimStart s).

(** [s.length], as an integer. *)
Definition length (s : string) : Z := Z.of_nat (String.length s).

(** Code units with a lowercase mapping below U+0100: A-Z, and
    U+00C0..U+00DE except the multiplication sign U+00D7. *)
Definition toLowerCaseUnit (c : ascii) : ascii :=
  let n := N_of_ascii c in
  if ((65 <=? n) && (n <=? 90)
      || (192 <=? n) && (n <=? 222) && negb (n =? 215))%N
  then ascii_of_N (n + 32) else c.

Fixpoint toLowerCase (s : string) : string :=
  match s with
  | String c r => String (toLowerCaseUnit c) (toLowerCase r)
  | EmptyString => EmptyString
  end.

Fixpoint startsWith (p s : string) : bool :=
  match p, s with
  | EmptyString, _ => true
  | String a p', String b s' => Ascii.eqb a b && startsWith p' s'
  | String _ _, EmptyString => false
  end.

(** [hay.includes(needle)] *)
Fixpoint includes (needle hay : string) : bool :=
  startsWith needle hay
  || match hay with
     | String _ r => includes needle r
     | EmptyString => false
     end.

(** [s.split(sep)[0]]: the part of [s] before the first [sep]
    (all of [s] when there is none). *)
Fixpoint splitHead (sep : ascii) (s : string) : string :=
  match s with
  | String c r => if Ascii.eqb c sep then EmptyString else String c (splitHead sep r)
  | EmptyString => EmptyString
  end.

Definition isDigit (c : ascii) : bool :=
  let n := N_of_ascii c in ((48 <=? n) && (n <=? 57))%N.

(** Every character of [s] satisfies [p]; the first one does; the last
    one does. *)
Fixpoint all (p : ascii -> bool) (s : string) : bool :=
  match s with
  | String c r => p c && all p r
  | EmptyString => true
  end.

Definition headIs (p : ascii -> bool) (s : string) : bool :=
  match s with
  | String c _ => p c
  | EmptyString => false
  end.

Fixpoint lastIs (p : ascii -> bool) (s : string) : bool :=
  match s with
  | String c EmptyString => p c
  | String _ r => lastIs p r
  | EmptyString => false
  end.

Definition digitValue (c : ascii) : Z := Z.of_N (N_of_ascii c) - 48.

End JsString.

(** ** JavaScript values *)

Section Values.

(** The Number type. The handler only moves numbers around, asks
    whether one is finite, truncates it and reads it from a string, so
    these stay abstract. *)
Context {number : Type}.

#[local] Unset Elimination Schemes.
Inductive JsValue : Type :=
| JUndefined
| JNull
| JBool (b : bool)
| JNumber (n : number)
| JString (s : string)
| JArray (items : list JsValue)
| JObject (fields : gmap string JsValue).
#[local] Set Elimination Schemes.

(** [typeof v === 'object' && v !== null] *)
Definition isRecord (v : JsValue) : bool :=
  match v with
  | JArray _ | JObject _ => true
  | _ => false
  end.

(** [o.k] for one of the keys the worker reads: an own property of an
    object; arrays and primitives have none of them. *)
Definition prop (o : JsValue) (k : string) : JsValue :=
  match o with
  | JObject fields => default JUndefined (fields !! k)
  | _ => JUndefined
  end.

(** [a ?? b] *)
Definition nullish (a b : JsValue) : JsValue :=
  match a with
  | JUndefined | JNull => b
  | _ => a
  end.

End Values.

Arguments JsValue : clear implicits.
Infix "??" := nullish (at level 45, left associativity).

(** ** Dates

    The time-value arithmetic of ECMAScript's [Date], on integers: a time
    value is a number of milliseconds since 1970-01-01T00:00:00Z, and
    [None] stands for the invalid time value [NaN]. *)

Module JsDate.

Definition msPerSecond : Z := 1000.
Definition msPerMinute : Z := 60000.
Definition msPerHour : Z := 3600000.
Definition msPerDay : Z := 86400000.

(** The largest magnitude of a valid time value: 100,000,000 days. *)
Definition maxTime : Z := 8640000000000000.

Definition TimeClip (t : Z) : option Z :=
  if Z.abs t <=? maxTime then Some t else None.

Definition Day (t : Z) : Z := t / msPerDay.
Definition TimeWithinDay (t : Z) : Z := t mod msPerDay.

Definition isLeapYear (y : Z) : bool :=
  (y mod 4 =? 0) && (negb (y mod 100 =? 0) || (y mod 400 =? 0)).

(** The day number of 1 January of year [y]. *)
Definition DayFromYear (y : Z) : Z :=
  365 * (y - 1970) + (y - 1969) / 4 - (y - 1901) / 100 + (y - 1601) / 400.

(** The year a day falls in: the estimate from the mean year length
    (146097 days in 400 years) is off by at most one. *)
Definition YearFromDay (d : Z) : Z :=
  let y := 1970 + d * 400 / 146097 in
  if d <? DayFromYear y then y - 1
  else if DayFromYear (y + 1) <=? d then y + 1
  else y.

Definition YearFromTime (t : Z) : Z := YearFromDay (Day t).
Definition InLeapYear (t : Z) : bool := isLeapYear (YearFromTime t).
Definition DayWithinYear (t : Z) : Z := Day t - DayFromYear (YearFromTime t).

(** The day within the year on which month [m] (0 = January) starts. *)
Definition monthStart (leap : bool) (m : Z) : Z :=
  let l := if leap then 1 else 0 in
  match m with
  | 0 => 0
  | 1 => 31
  | 2 => 59 + l
  | 3 => 90 + l
  | 4 => 120 + l
  | 5 => 151 + l
  | 6 => 181 + l
  | 7 => 212 + l
  | 8 => 243 + l
  | 9 => 273 + l
  | 10 => 304 + l
  | _ => 334 + l
  end.

Definition MonthFromDayWithinYear (leap : bool) (d : Z) : Z :=
  if d <? monthStart leap 1 then 0
  else if d <? monthStart leap 2 then 1
  else if d <? monthStart leap 3 then 2
  else if d <? monthStart leap 4 then 3
  else if d <? monthStart leap 5 then 4
  else if d <? monthStart leap 6 then 5
  else if d <? monthStart leap 7 then 6
  else if d <? monthStart leap 8 then 7
  else if d <? monthStart leap 9 then 8
  else if d <? monthStart leap 10 then 9
  else if d <? monthStart leap 11 then 10
  else 11.

Definition MonthFromTime (t : Z) : Z :=
  MonthFromDayWithinYear (InLeapYear t) (DayWithinYear t).

Definition DateFromTime (t : Z) : Z :=
  DayWithinYear t - monthStart (InLeapYear t) (MonthFromTime t) + 1.

Definition HourFromTime (t : Z) : Z := (t / msPerHour) mod 24.
Definition MinFromTime (t : Z) : Z := (t / msPerMinute) mod 60.
Definition SecFromTime (t : Z) : Z := (t / msPerSecond) mod 60.
Definition msFromTime (t : Z) : Z := t mod msPerSecond.

Definition MakeTime (hour min sec ms : Z) : Z :=
  hour * msPerHour + min * msPerMinute + sec * msPerSecond + ms.

(** The day number of the [date]-th day of month [month] of [year];
    months and dates out of range carry over. *)
Definition MakeDay (year month date : Z) : Z :=
  let ym := year + month / 12 in
  let mn := month mod 12 in
  DayFromYear ym + monthStart (isLeapYear ym) mn + date - 1.

Definition MakeDate (day time : Z) : Z := day * msPerDay + time.

(** [Date.UTC(year, month, date, hours, minutes, seconds, ms)]; a year
    from 0 to 99 means 1900 + year. *)
Definition UTC (year month date hours minutes seconds ms : Z) : option Z :=
  let yr := if (0 <=? year) && (year <=? 99) then 1900 + year else year in
  TimeClip (MakeDate (MakeDay yr month date) (MakeTime hours minutes seconds ms)).

Definition digitChar (n : Z) : ascii := ascii_of_N (Z.to_N (48 + n mod 10)).

(** [n] in [width] decimal digits, most significant first. *)
Fixpoint decimal (width : nat) (n : Z) (tail : string) : string :=
  match width with
  | O => tail
  | S w => decimal w (n / 10) (String (digitChar n) tail)
  end.

(** Four digits for the years 0 to 9999, a sign and six digits otherwise. *)
Definition yearString (y : Z) (tail : string) : string :=
  if (0 <=? y) && (y <=? 9999) then decimal 4 y tail
  else String (if y <? 0 then "-"%char else "+"%char) (decimal 6 (Z.abs y) tail).

(** [new Date(t).toISOString()] for a valid time value [t]:
    [YYYY-MM-DDTHH:mm:ss.sssZ]. *)
Definition toISOString (t : Z) : string :=
  let ms := String "."%char (decimal 3 (msFromTime t) "Z") in
  let sec := String ":"%char (decimal 2 (SecFromTime t) ms) in
  let min := String ":"%char (decimal 2 (MinFromTime t) sec) in
  let hour := String "T"%char (decimal 2 (HourFromTime t) min) in
  let date := String "-"%char (decimal 2 (DateFromTime t) hour) in
  let month := String "-"%char (decimal 2 (MonthFromTime t + 1) date) in
  yearString (YearFromTime t) month.

(** The date part and the time part of [toISOString] in the years 0 to
    9999, where the year takes four digits. *)
Definition isoDateThen (t : Z) (tail : string) : string :=
  decimal 4 (YearFromTime t)
    (String "-" (decimal 2 (MonthFromTime t + 1)
      (String "-" (decimal 2 (DateFromTime t) tail)))).

Definition isoDate (t : Z) : string := isoDateThen t "".

Definition isoTime (t : Z) : string :=
  String "T" (decimal 2 (HourFromTime t)
    (String ":" (decimal 2 (MinFromTime t)
      (String ":" (decimal 2 (SecFromTime t)
        (String "." (decimal 3 (msFromTime t) "Z"))))))).

(** The first instant of the year 0 and the last of the year 9999. *)
Definition firstFourDigitYearTime : Z := -62167219200000.
Definition lastFourDigitYearTime : Z := 253402300799999.

(** The instants whose year [toISOString] writes in four digits. *)
Definition fourDigitYearTime (t : Z) : Prop :=
  firstFourDigitYearTime <= t <= lastFourDigitYearTime.

(** [Math.ceil(x / 1000)] for an integer [x] of magnitude below 2^53.
    The quotient is rounded to a double; unless it is an integer it is at
    least 1/1000 away from one, more than rounding moves it, so the
    ceiling is that of the exact quotient. *)
Definition ceilDiv1000 (x : Z) : Z := - ((- x) / 1000).

End JsDate.

(** ** Numbers read from strings *)

Module JsNumber.

(** What [Number.parseInt] can return: [NaN], an infinity, or an integer
    (every finite result is one). *)
Variant parsed : Type :=
| NaN
| Infinity (negative : bool)
| Integer (z : Z).

(** The double nearest to a non-negative integer (ties to even); [None]
    when it rounds to infinity. Integers below 2^53 are doubles. *)
Definition roundToDouble (n : Z) : option Z :=
  if n <? 2 ^ 53 then Some n
  else
    let e := Z.log2 n - 52 in
    let q := n / 2 ^ e in
    let r := n mod 2 ^ e in
    let half := 2 ^ (e - 1) in
    let q' := if (r <? half) || ((r =? half) && Z.even q) then q else q + 1 in
    if q' * 2 ^ e <? 2 ^ 1024 then Some (q' * 2 ^ e) else None.

(** The value of the longest run of decimal digits [s] starts with, after
    the digits [acc] already read; [None] when neither holds a digit. *)
Fixpoint digitRun (s : string) (acc : option Z) : option Z :=
  match s with
  | String c r =>
      if JsString.isDigit c
      then digitRun r (Some (10 * default 0 acc + JsString.digitValue c))
      else acc
  | EmptyString => acc
  end.

(** [Number.parseInt(s, 10)]: leading white space is skipped, one sign is
    read, then the longest run of digits; what follows is ignored. Every
    digit counts here (an engine is allowed to read the digits after the
    twentieth as zeros). *)
Definition parseInt (s : string) : parsed :=
  let s := JsString.trimStart s in
  let '(negative, s) :=
    match s with
    | String "-" r => (true, r)
    | String "+" r => (false, r)
    | _ => (false, s)
    end in
  match digitRun s None with
  | None => NaN
  | Some mathInt =>
      match roundToDouble mathInt with
      | Some n => Integer (if negative then - n else n)
      | None => Infinity negative
      end
  end.

(** [String(n)] for an integer of magnitude below 10^21. *)
Definition toString (n : Z) : string := pretty n.

(** The number a run of digits writes, for stating what [parseInt]
    returns. *)
Fixpoint digitsValueFrom (acc : Z) (s : string) : Z :=
  match s with
  | String c r => digitsValueFrom (10 * acc + JsString.digitValue c) r
  | EmptyString => acc
  end.

Definition digitsValue (s : string) : Z := digitsValueFrom 0 s.

Definition isSign (c : ascii) : bool := Ascii.eqb c "+" || Ascii.eqb c "-".

(** A positive-integer string: digits only, at least one, writing a
    number that is at least 1. *)
Definition isPositiveIntegerString (s : string) : bool :=
  negb (String.eqb s "") && JsString.all JsString.isDigit s && (1 <=? digitsValue s).

End JsNumber.

(** ** The data model *)

(** The fields of a submission; [E] is [option string] before validation
    (the email may be missing) and [string] after. *)
Record PayloadOf (E : Type) : Type := {
  email : E;
  useCase : option string;
  website : option string
}.
Arguments email {E} _.
Arguments useCase {E} _.
Arguments website {E} _.

Abbreviation NormalizedPayload := (PayloadOf (option string)).
Abbreviation Payload := (PayloadOf string).

(** A value of a submitted form: text, or a file with its name. *)
Variant FormDataEntryValue : Type :=
| FormString (s : string)
| FormFile (name : string).

(** The JSON bodies of the responses: [{ok, error?, message}]. *)
Record Body : Type := {
  ok : bool;
  error : option string;
  message : string
}.

(** A response: its status, its body, and the headers the handler sets
    itself. *)
Record Response : Type := {
  status : Z;
  body : Body;
  responseHeaders : list (string * string)
}.

(** A row of [waitlist_entries], column by column. *)
Module Entry.
Record t {number : Type} : Type := {
  id : Z;
  email : string;
  use_case : option string;
  ip_address : option string;
  user_agent : option string;
  accept_language : option string;
  cf_country : option string;
  cf_region : option string;
  cf_region_code : option string;
  cf_city : option string;
  cf_postal_code : option string;
  cf_continent : option string;
  cf_timezone : option string;
  cf_colo : option string;
  cf_asn : option number;
  cf_as_organization : option string;
  cf_latitude : option number;
  cf_longitude : option number;
  cf_bot_score : option number;
  cf_tls_version : option string;
  cf_http_protocol : option string;
  created_at : string;
  updated_at : string
}.
Arguments t : clear implicits.
End Entry.

(** The table: its rows in rowid order, and the largest rowid it ever
    gave out (AUTOINCREMENT keeps it in [sqlite_sequence]). *)
Record Store {number : Type} : Type := {
  rows : list (Entry.t number);
  sequence : Z
}.
Arguments Store : clear implicits.

Record CfSnapshot {number : Type} : Type := {
  country : option string;
  region : option string;
  regionCode : option string;
  city : option string;
  postalCode : option string;
  continent : option string;
  timezone : option string;
  colo : option string;
  asn : option number;
  asOrganization : option string;
  latitude : option number;
  longitude : option number;
  botScore : option number;
  tlsVersion : option string;
  httpProtocol : option string
}.
Arguments CfSnapshot : clear implicits.

(** A request as the handler reads it: the headers by lowercase name,
    what [request.json()] and [request.formData()] resolve to ([None]
    when they reject), and the runtime's [cf] object when there is one. *)
Record Request {number : Type} : Type := {
  headers : gmap string string;
  json : option (JsValue number);
  formData : option (list (string * FormDataEntryValue));
  cf : option (gmap string (JsValue number))
}.
Arguments Request : clear implicits.

(** The bindings the handler reads besides the table. *)
Record Bindings : Type := {
  WAITLIST_RATE_LIMIT_PER_DAY : option string
}.

(** The handler answers and leaves a store behind, or an exception
    escapes it. *)
Variant Outcome {number : Type} : Type :=
| Responded (response : Response) (db : Store number)
| Threw.
Arguments Outcome : clear implicits.

(** What the worker takes from outside: the numbers of the JavaScript
    runtime with [Number.isFinite], [Math.trunc] and [Number(s)], and the
    pattern behind the validation library's [z.email()]. *)
Class Runtime (number : Type) : Type := {
  number_isFinite : number -> bool;
  number_trunc : number -> number;
  number_ofString : string -> number;
  isEmail : string -> bool
}.

(** ** The worker's functions *)

Section Worker.

Context {number : Type} {runtime : Runtime number}.

Implicit Types (request : Request number) (db : Store number).
Implicit Types (row old excluded : Entry.t number) (value raw : JsValue number).

(** *** Reading the body *)

(** [output[key] = typeof value === 'string' ? value : value.name] *)
Definition formField (output : gmap string (JsValue number))
    (entry : string * FormDataEntryValue) : gmap string (JsValue number) :=
  let '(key, value) := entry in
  <[key := JString match value with
                   | FormString s => s
                   | FormFile name => name
                   end]> output.

Definition parseRequestBody request : option (JsValue number) :=
  let contentType := default "" (headers request !! "content-type") in
  if JsString.includes "application/json" contentType then
    let jsonBody := default JNull (json request) in
    Some (if isRecord jsonBody then jsonBody else JObject ∅)
  else if JsString.includes "application/x-www-form-urlencoded" contentType
          || JsString.includes "multipart/form-data" contentType then
    match formData request with
    | Some entries => Some (JObject (foldl formField ∅ entries))
    | None => None
    end
  else Some (JObject ∅).

Definition toOptionalString value : option string :=
  match value with
  | JString s =>
      let trimmed := JsString.trim s in
      if JsString.length trimmed >? 0 then Some trimmed else None
  | _ => None
  end.

Definition normalizePayload raw : NormalizedPayload :=
  {| email := toOptionalString (prop raw "email");
     useCase := toOptionalString
       (prop raw "useCase" ?? prop raw "use_case" ?? prop raw "intent"
        ?? prop raw "description");
     website := toOptionalString (prop raw "website" ?? prop raw "company") |}.

(** *** Validation *)

(** [z.string().trim().max(n).optional()] on a string or [undefined]. *)
Definition optionalTrimmedMax (n : Z) (field : option string)
    : option (option string) :=
  match field with
  | None => Some None
  | Some s =>
      let s := JsString.trim s in
      if JsString.length s <=? n then Some (Some s) else None
  end.

(** [z.preprocess(trim, z.email().max(320))]: [undefined] is no email. *)
Definition emailMax (n : Z) (field : option string) : option string :=
  match field with
  | None => None
  | Some s =>
      let s := JsString.trim s in
      if isEmail s && (JsString.length s <=? n) then Some s else None
  end.

(** [waitlistPayloadSchema.safeParse]: the parsed data, or [None] when
    [success] is false. *)
Definition safeParse (input : NormalizedPayload) : option Payload :=
  match emailMax 320 (email input),
        optionalTrimmedMax 1200 (useCase input),
        optionalTrimmedMax 200 (website input) with
  | Some e, Some u, Some w => Some {| email := e; useCase := u; website := w |}
  | _, _, _ => None
  end.

(** [payload.website && payload.website.length > 0] *)
Definition honeypot (payload : Payload) : bool :=
  match website payload with
  | Some w => JsString.length w >? 0
  | None => false
  end.

(** *** Configuration, client address, day bounds *)

Definition parsePositiveInt (value : option string) (fallbackValue : Z) : Z :=
  match value with
  | None | Some EmptyString => fallbackValue
  | Some value =>
      match JsNumber.parseInt value with
      | JsNumber.Integer parsedValue =>
          if parsedValue <? 1 then fallbackValue else parsedValue
      | _ => fallbackValue
      end
  end.

Definition getConnectingIp (headers : gmap string string) : string :=
  let fromForwardedFor :=
    match headers !! "x-forwarded-for" with
    | Some forwardedFor =>
        if JsString.length forwardedFor >? 0
        then JsString.trim (JsString.splitHead "," forwardedFor)
        else "unknown"
    | None => "unknown"
    end in
  match headers !! "cf-connecting-ip" with
  | Some connectingIp =>
      if JsString.length connectingIp >? 0 then connectingIp
      else fromForwardedFor
  | None => fromForwardedFor
  end.

(** The three date helpers; [None] is the [RangeError] of [toISOString]
    on an invalid date, respectively the number [NaN]. *)
Definition startOfUtcDayIso (date : Z) : option string :=
  JsDate.toISOString <$>
    JsDate.UTC (JsDate.YearFromTime date) (JsDate.MonthFromTime date)
      (JsDate.DateFromTime date) 0 0 0 0.

Definition endOfUtcDayIso (date : Z) : option string :=
  JsDate.toISOString <$>
    JsDate.UTC (JsDate.YearFromTime date) (JsDate.MonthFromTime date)
      (JsDate.DateFromTime date) 23 59 59 999.

Definition secondsUntilNextUtcDay (now : Z) : option Z :=
  (fun nextDay => Z.max 1 (JsDate.ceilDiv1000 (nextDay - now))) <$>
    JsDate.UTC (JsDate.YearFromTime now) (JsDate.MonthFromTime now)
      (JsDate.DateFromTime now + 1) 0 0 0 0.

(** *** The edge metadata *)

Definition readCfString (input : option (JsValue number)) (key : string)
    : option string :=
  match input with
  | None => None
  | Some input =>
      match prop input key with
      | JString value => if JsString.length value >? 0 then Some value else None
      | _ => None
      end
  end.

Definition readCfFloat (input : option (JsValue number)) (key : string)
    : option number :=
  match input with
  | None => None
  | Some input =>
      match prop input key with
      | JNumber value => if number_isFinite value then Some value else None
      | JString value =>
          if JsString.length (JsString.trim value) >? 0 then
            let parsed := number_ofString value in
            if number_isFinite parsed then Some parsed else None
          else None
      | _ => None
      end
  end.

Definition readCfInteger (input : option (JsValue number)) (key : string)
    : option number :=
  number_trunc <$> readCfFloat input key.

Definition getCfSnapshot request : CfSnapshot number :=
  let cf := JObject <$> cf request in
  let botManagement :=
    match cf with
    | Some o => if isRecord (prop o "botManagement")
                then Some (prop o "botManagement") else None
    | None => None
    end in
  {| country := readCfString cf "country";
     region := readCfString cf "region";
     regionCode := readCfString cf "regionCode";
     city := readCfString cf "city";
     postalCode := readCfString cf "postalCode";
     continent := readCfString cf "continent";
     timezone := readCfString cf "timezone";
     colo := readCfString cf "colo";
     asn := readCfInteger cf "asn";
     asOrganization := readCfString cf "asOrganization";
     latitude := readCfFloat cf "latitude";
     longitude := readCfFloat cf "longitude";
     botScore := readCfInteger botManagement "score";
     tlsVersion := readCfString cf "tlsVersion";
     httpProtocol := readCfString cf "httpProtocol" |}.

(** *** The two statements on the table *)

(** [WHERE ip_address = ?1 AND created_at >= ?2 AND created_at <= ?3];
    text compares byte by byte. *)
Definition inWindow (ipAddress dayStart dayEnd : string) row : bool :=
  bool_decide (Entry.ip_address row = Some ipAddress)
  && String.leb dayStart (Entry.created_at row)
  && String.leb (Entry.created_at row) dayEnd.

(** [SELECT COUNT( * ) ...] *)
Definition countEntries db (ipAddress dayStart dayEnd : string) : Z :=
  Z.of_nat (List.length (List.filter (inWindow ipAddress dayStart dayEnd) (rows db))).

(** The rowid a new row gets: one more than the largest the table holds
    or ever gave out. *)
Definition nextRowid db : Z :=
  1 + fold_right Z.max (sequence db) (map Entry.id (rows db)).

(** [ON CONFLICT(email) DO UPDATE SET ...]: every column but [id],
    [email] and [created_at] is taken from the row that failed to insert. *)
Definition doUpdate old excluded : Entry.t number :=
  {| Entry.id := Entry.id old;
     Entry.email := Entry.email old;
     Entry.use_case := Entry.use_case excluded;
     Entry.ip_address := Entry.ip_address excluded;
     Entry.user_agent := Entry.user_agent excluded;
     Entry.accept_language := Entry.accept_language excluded;
     Entry.cf_country := Entry.cf_country excluded;
     Entry.cf_region := Entry.cf_region excluded;
     Entry.cf_region_code := Entry.cf_region_code excluded;
     Entry.cf_city := Entry.cf_city excluded;
     Entry.cf_postal_code := Entry.cf_postal_code excluded;
     Entry.cf_continent := Entry.cf_continent excluded;
     Entry.cf_timezone := Entry.cf_timezone excluded;
     Entry.cf_colo := Entry.cf_colo excluded;
     Entry.cf_asn := Entry.cf_asn excluded;
     Entry.cf_as_organization := Entry.cf_as_organization excluded;
     Entry.cf_latitude := Entry.cf_latitude excluded;
     Entry.cf_longitude := Entry.cf_longitude excluded;
     Entry.cf_bot_score := Entry.cf_bot_score excluded;
     Entry.cf_tls_version := Entry.cf_tls_version excluded;
     Entry.cf_http_protocol := Entry.cf_http_protocol excluded;
     Entry.created_at := Entry.created_at old;
     Entry.updated_at := Entry.updated_at excluded |}.

Definition conflicts excluded row : bool :=
  String.eqb (Entry.email row) (Entry.email excluded).

(** [INSERT INTO waitlist_entries (...) VALUES (...) ON CONFLICT(email)
    DO UPDATE SET ...], as one step on the table. *)
Definition upsert db excluded : Store number :=
  if existsb (conflicts excluded) (rows db) then
    {| rows := map (fun row => if conflicts excluded row
                               then doUpdate row excluded else row) (rows db);
       sequence := sequence db |}
  else
    {| rows := rows db ++ [excluded];
       sequence := Entry.id excluded |}.

(** *** The handler of [POST /api/waitlist] *)

Definition jsonResponse (extra : list (string * string)) (b : Body) (code : Z)
    : Response :=
  {| status := code; body := b; responseHeaders := extra |}.

(** The values bound to the insert, as the row they would make. *)
Definition boundRow db request (payload : Payload) (ipAddress nowIso : string)
    : Entry.t number :=
  let email := JsString.toLowerCase (email payload) in
  let cfSnapshot := getCfSnapshot request in
  {| Entry.id := nextRowid db;
     Entry.email := email;
     Entry.use_case := useCase payload;
     Entry.ip_address := Some ipAddress;
     Entry.user_agent := headers request !! "user-agent";
     Entry.accept_language := headers request !! "accept-language";
     Entry.cf_country := country cfSnapshot;
     Entry.cf_region := region cfSnapshot;
     Entry.cf_region_code := regionCode cfSnapshot;
     Entry.cf_city := city cfSnapshot;
     Entry.cf_postal_code := postalCode cfSnapshot;
     Entry.cf_continent := continent cfSnapshot;
     Entry.cf_timezone := timezone cfSnapshot;
     Entry.cf_colo := colo cfSnapshot;
     Entry.cf_asn := asn cfSnapshot;
     Entry.cf_as_organization := asOrganization cfSnapshot;
     Entry.cf_latitude := latitude cfSnapshot;
     Entry.cf_longitude := longitude cfSnapshot;
     Entry.cf_bot_score := botScore cfSnapshot;
     Entry.cf_tls_version := tlsVersion cfSnapshot;
     Entry.cf_http_protocol := httpProtocol cfSnapshot;
     Entry.created_at := nowIso;
     Entry.updated_at := nowIso |}.

Definition invalidPayload : Response :=
  jsonResponse []
    {| ok := false; error := Some "invalid_payload";
       message := "Please submit a valid email address." |} 400.

Definition honeypotAccepted : Response :=
  jsonResponse []
    {| ok := true; error := None; message := "Thanks for your interest." |} 200.

Definition rateLimited (retryAfterSeconds : option Z) : Response :=
  jsonResponse
    [("Retry-After", match retryAfterSeconds with
                     | Some n => JsNumber.toString n
                     | None => "NaN"
                     end)]
    {| ok := false; error := Some "rate_limited";
       message := "Rate limit reached. Please try again tomorrow." |} 429.

Definition accepted : Response :=
  jsonResponse []
    {| ok := true; error := None; message := "You are on the waitlist." |} 201.

(** [app.post('/api/waitlist', ...)] on the bindings [env], with [now]
    what [new Date()] reads and [db] the table as the request finds it. *)
Definition postWaitlist (env : Bindings) (now : Z) request db : Outcome number :=
  match parseRequestBody request with
  | None => Threw
  | Some rawPayload =>
      let normalizedPayload := normalizePayload rawPayload in
      match safeParse normalizedPayload with
      | None => Responded invalidPayload db
      | Some payload =>
          if honeypot payload then Responded honeypotAccepted db
          else
            let rateLimitPerDay :=
              parsePositiveInt (WAITLIST_RATE_LIMIT_PER_DAY env) 10 in
            match startOfUtcDayIso now, endOfUtcDayIso now with
            | Some dayStart, Some dayEnd =>
                let ipAddress := getConnectingIp (headers request) in
                let submissionCount := countEntries db ipAddress dayStart dayEnd in
                if submissionCount >=? rateLimitPerDay then
                  Responded (rateLimited (secondsUntilNextUtcDay now)) db
                else
                  let nowIso := JsDate.toISOString now in
                  Responded accepted
                    (upsert db (boundRow db request payload ipAddress nowIso))
            | _, _ => Threw
            end
      end
  end.

(** *** Notions the properties are stated with *)

(** The first and the last millisecond of the UTC calendar day of [now]
    (00:00:00.000 and 23:59:59.999), and the midnight that follows. *)
Definition utcDayStart (now : Z) : Z := JsDate.Day now * JsDate.msPerDay.
Definition utcDayEnd (now : Z) : Z := utcDayStart now + 86399999.
Definition nextUtcMidnight (now : Z) : Z := utcDayStart now + JsDate.msPerDay.

(** The clocks the day bounds work for: a valid time value that is not
    the very last one, outside the years 0 to 99, which [Date.UTC] reads
    as 1900 to 1999. Every time from 1970 on to the end of time is one. *)
Definition plausibleClock (now : Z) : Prop :=
  - JsDate.maxTime <= now < JsDate.maxTime
  /\ ~ (0 <= JsDate.YearFromTime now <= 99).

(** The row's [created_at] lies between the first and the last
    millisecond of the UTC day of [now], both included. *)
Definition createdOnUtcDayOf (now : Z) row : bool :=
  String.leb (JsDate.toISOString (utcDayStart now)) (Entry.created_at row)
  && String.leb (Entry.created_at row) (JsDate.toISOString (utcDayEnd now)).

(** The number of rows of [ipAddress] created on the UTC day of [now]. *)
Definition rowsOfIpOnUtcDayOf db (ipAddress : string) (now : Z) : Z :=
  Z.of_nat (List.length (List.filter
    (fun row => bool_decide (Entry.ip_address row = Some ipAddress)
                && createdOnUtcDayOf now row) (rows db))).

(** The rows stored for an email. *)
Definition rowsOfEmail db (email : string) : list (Entry.t number) :=
  List.filter (fun row => String.eqb (Entry.email row) email) (rows db).

(** The keys a field is read from, in priority order. *)
Definition useCaseKeys : list string := ["useCase"; "use_case"; "intent"; "description"].
Definition websiteKeys : list string := ["website"; "company"].

(** The first of [values] that is neither [null] nor [undefined]. *)
Fixpoint firstPresent (values : list (JsValue number)) : JsValue number :=
  match values with
  | [] => JUndefined
  | JUndefined :: rest | JNull :: rest => firstPresent rest
  | v :: _ => v
  end.

(** The five ways a normalized payload fails the schema. *)
Definition failsValidation (input : NormalizedPayload) : Prop :=
  email input = None
  \/ (exists e, email input = Some e /\ isEmail e = false)
  \/ (exists e, email input = Some e /\ 320 < JsString.length e)
  \/ (exists u, useCase input = Some u /\ 1200 < JsString.length u)
  \/ (exists w, website input = Some w /\ 200 < JsString.length w).

(** The table's [UNIQUE(email)] constraint. *)
Definition uniqueEmails db : Prop := List.NoDup (map Entry.email (rows db)).

(** The response of an outcome, when there is one. *)
Definition responseOf (outcome : Outcome number) : option Response :=
  match outcome with
  | Responded response _ => Some response
  | Threw => None
  end.

(** Every stored email is its own lowercase. *)
Definition lowercaseEmails db : Prop :=
  Forall (fun row => JsString.toLowerCase (Entry.email row) = Entry.email row) (rows db).

(** No rowid is held twice, and none is above the last one given out. *)
Definition rowidsIssued db : Prop :=
  List.NoDup (map Entry.id (rows db))
  /\ Forall (fun row => Entry.id row <= sequence db) (rows db).

(** The rows an address holds. *)
Definition rowsOfIp db (ipAddress : string) : list (Entry.t number) :=
  List.filter (fun row => bool_decide (Entry.ip_address row = Some ipAddress)) (rows db).

(** The row was stamped by [toISOString] at an instant before the UTC day
    of [now] began. *)
Definition stampedBeforeDayOf (now : Z) row : Prop :=
  exists t, JsDate.fourDigitYearTime t
            /\ Entry.created_at row = JsDate.toISOString t
            /\ t < utcDayStart now.

(** The row was stamped by [toISOString] at an instant no later than
    [now]. *)
Definition stampedBy (now : Z) row : Prop :=
  exists t, JsDate.fourDigitYearTime t
            /\ Entry.created_at row = JsDate.toISOString t
            /\ t <= now.


(** The content type the handler reads, and whether it names a form. *)
Definition contentTypeOf request : string :=
  default "" (headers request !! "content-type").

Definition namesForm (contentType : string) : bool :=
  JsString.includes "application/x-www-form-urlencoded" contentType
  || JsString.includes "multipart/form-data" contentType.

(** The text fields of a body, as a form sends them and as a JSON object
    holds them. *)
Definition asFormEntries (fields : list (string * string))
    : list (string * FormDataEntryValue) :=
  map (fun field => (fst field, FormString (snd field))) fields.

Definition asJsonObject (fields : list (string * string)) : JsValue number :=
  JObject (list_to_map (map (fun field => (fst field, JString (snd field))) fields)).

(** The snapshot of a request without edge metadata. *)
Definition emptyCfSnapshot : CfSnapshot number :=
  {| country := None; region := None; regionCode := None; city := None;
     postalCode := None; continent := None; timezone := None; colo := None;
     asn := None; asOrganization := None; latitude := None; longitude := None;
     botScore := None; tlsVersion := None; httpProtocol := None |}.

(** The texts of a snapshot. *)
Definition snapshotTexts (snapshot : CfSnapshot number) : list (option string) :=
  [country snapshot; region snapshot; regionCode snapshot; city snapshot;
   postalCode snapshot; continent snapshot; timezone snapshot; colo snapshot;
   asOrganization snapshot; tlsVersion snapshot; httpProtocol snapshot].


End Worker.

(** ** A runtime to evaluate the worker on *)

(** The default pattern of the validation library's [z.email()]: no dot
    at the start and no two dots in a row; a local part of letters,
    digits and the characters _ ' + - . whose last character is a letter,
    a digit or one of _ + -; an at sign; one or more labels, each a
    letter or digit followed by letters, digits and hyphens, and each
    followed by a dot; and two or more letters to end with. *)
Module EmailPattern.

Definition isLetter (c : ascii) : bool :=
  let n := N_of_ascii c in
  ((65 <=? n) && (n <=? 90) || (97 <=? n) && (n <=? 122))%N.

Definition isAlnum (c : ascii) : bool := isLetter c || JsString.isDigit c.

Definition isOneOf (chars : string) (c : ascii) : bool :=
  JsString.includes (String c "") chars.

(** The characters of the local part, and those it may end with. *)
Definition isLocal (c : ascii) : bool := isAlnum c || isOneOf "_'+-." c.
Definition isLocalEnd (c : ascii) : bool := isAlnum c || isOneOf "_+-" c.

(** What follows the first [sep] of [s], when there is one. *)
Fixpoint afterFirst (sep : ascii) (s : string) : option string :=
  match s with
  | String c r => if Ascii.eqb c sep then Some r else afterFirst sep r
  | EmptyString => None
  end.

(** A label of the domain. *)
Definition isLabel (s : string) : bool :=
  JsString.headIs isAlnum s && JsString.all (fun c => isAlnum c || Ascii.eqb c "-") s.

(** The domain, label by label; [seen] tells whether a label came
    before the letters that end it. *)
Fixpoint isDomain (fuel : nat) (seen : bool) (s : string) : bool :=
  match fuel with
  | O => false
  | S fuel =>
      match afterFirst "." s with
      | Some rest => isLabel (JsString.splitHead "." s) && isDomain fuel true rest
      | None => seen && JsString.all isLetter s && (2 <=? JsString.length s)
      end
  end.

Definition matches (s : string) : bool :=
  negb (JsString.startsWith "." s)
  && negb (JsString.includes ".." s)
  && match afterFirst "@" s with
     | Some domain =>
         let local := JsString.splitHead "@" s in
         JsString.all isLocal local && JsString.lastIs isLocalEnd local
         && isDomain (S (String.length domain)) false domain
     | None => false
     end.

End EmailPattern.

(** The numbers that are integers, with [None] for [NaN]; texts of
    digits read as the integer they write. *)
Definition sampleRuntime : Runtime (option Z) :=
  {| number_isFinite := fun n => bool_decide (is_Some n);
     number_trunc := fun n => n;
     number_ofString := fun s =>
       if negb (String.eqb s "") && JsString.all JsString.isDigit s
       then Some (JsNumber.digitsValue s) else None;
     isEmail := EmailPattern.matches |}.
#[export] Existing Instance sampleRuntime.

(** A JSON request from the address [ip]. *)
Definition jsonRequest (ip : string) (fields : list (string * JsValue (option Z)))
    : Request (option Z) :=
  {| headers := {[ "content-type" := "application/json"; "cf-connecting-ip" := ip ]};
     json := Some (JObject (list_to_map fields));
     formData := None;
     cf := None |}.

(** A multipart form request from the address [ip]. *)
Definition formRequest (ip : string) (entries : list (string * FormDataEntryValue))
    : Request (option Z) :=
  {| headers := {[ "content-type" := "multipart/form-data; boundary=x";
                   "cf-connecting-ip" := ip ]};
     json := None;
     formData := Some entries;
     cf := None |}.

Definition emptyStore : Store (option Z) := {| rows := []; sequence := 0 |}.

Definition defaultBindings : Bindings := {| WAITLIST_RATE_LIMIT_PER_DAY := None |}.

(** 2026-11-02T00:40:00.123Z, and the same time a day later. *)
Definition sampleClock : Z := 1793580000123.
Definition nextDayClock : Z := sampleClock + 86400000.

(** The answers' statuses and the store after a run of submissions, each
    with its clock; an exception leaves the store as it was. *)
Fixpoint submitAll (env : Bindings) (submissions : list (Z * Request (option Z)))
    (db : Store (option Z)) : list (option Z) * Store (option Z) :=
  match submissions with
  | [] => ([], db)
  | (now, request) :: rest =>
      match postWaitlist env now request db with
      | Responded response db' =>
          let '(statuses, final) := submitAll env rest db' in
          (Some (status response) :: statuses, final)
      | Threw =>
          let '(statuses, final) := submitAll env rest db in
          (None :: statuses, final)
      end
  end.

(** A ceiling of two submissions a day. *)
Definition limitTwo : Bindings := {| WAITLIST_RATE_LIMIT_PER_DAY := Some "2" |}.

(** A first submission, its resubmission in another letter case from
    another address with a use case, and two submissions of other emails. *)
Definition firstSubmission : Request (option Z) :=
  jsonRequest "1.2.3.4" [("email", JString "user@example.com")].

Definition resubmission : Request (option Z) :=
  jsonRequest "5.6.7.8"
    [("email", JString " User@Example.COM "); ("use_case", JString "Try it out")].

Definition secondSubmission : Request (option Z) :=
  jsonRequest "1.2.3.4" [("email", JString "second@example.com")].

Definition thirdSubmission : Request (option Z) :=
  jsonRequest "1.2.3.4" [("email", JString "third@example.com")].



(** A row without header or edge metadata. *)
Definition plainRow (id : Z) (email : string) (use_case : option string)
    (ip : string) (created_at updated_at : string) : Entry.t (option Z) :=
  {| Entry.id := id;
     Entry.email := email;
     Entry.use_case := use_case;
     Entry.ip_address := Some ip;
     Entry.user_agent := None;
     Entry.accept_language := None;
     Entry.cf_country := None;
     Entry.cf_region := None;
     Entry.cf_region_code := None;
     Entry.cf_city := None;
     Entry.cf_postal_code := None;
     Entry.cf_continent := None;
     Entry.cf_timezone := None;
     Entry.cf_colo := None;
     Entry.cf_asn := None;
     Entry.cf_as_organization := None;
     Entry.cf_latitude := None;
     Entry.cf_longitude := None;
     Entry.cf_bot_score := None;
     Entry.cf_tls_version := None;
     Entry.cf_http_protocol := None;
     Entry.created_at := created_at;
     Entry.updated_at := updated_at |}.

(** The row of the first submission, as stored and as the resubmission
    leaves it, and the row of the second submission. *)
Definition storedRow : Entry.t (option Z) :=
  plainRow 1 "user@example.com" None "1.2.3.4"
    "2026-11-02T00:40:00.123Z" "2026-11-02T00:40:00.123Z".

Definition updatedRow : Entry.t (option Z) :=
  plainRow 1 "user@example.com" (Some "Try it out") "5.6.7.8"
    "2026-11-02T00:40:00.123Z" "2026-11-03T00:40:00.123Z".

Definition secondRow : Entry.t (option Z) :=
  plainRow 2 "second@example.com" None "1.2.3.4"
    "2026-11-02T00:40:00.123Z" "2026-11-02T00:40:00.123Z".

Definition oneRowStore : Store (option Z) := {| rows := [storedRow]; sequence := 1 |}.
Definition resubmittedStore : Store (option Z) := {| rows := [updatedRow]; sequence := 1 |}.
Definition twoRowStore : Store (option Z) :=
  {| rows := [storedRow; secondRow]; sequence := 2 |}.

(** The bodies of the sample requests as the handler decodes them, and
    the payloads validation makes of them. *)
Definition bodyOf (fields : list (string * JsValue (option Z))) : JsValue (option Z) :=
  JObject (list_to_map fields).

Definition resubmissionPayload : Payload :=
  {| email := "User@Example.COM"; useCase := Some "Try it out"; website := None |}.

Definition thirdPayload : Payload :=
  {| email := "third@example.com"; useCase := None; website := None |}.



Definition secondPayload : Payload :=
  {| email := "second@example.com"; useCase := None; website := None |}.

Definition movedRow : Entry.t (option Z) :=
  plainRow 1 "user@example.com" (Some "Try it out") "5.6.7.8"
    "2026-11-02T00:40:00.123Z" "2026-11-02T00:40:00.123Z".


Definition otherRow : Entry.t (option Z) :=
  plainRow 3 "other@example.com" None "5.6.7.8"
    "2026-11-02T00:40:00.123Z" "2026-11-02T00:40:00.123Z".

Definition movedStore : Store (option Z) := {| rows := [movedRow]; sequence := 1 |}.
Definition threeRowStore : Store (option Z) :=
  {| rows := [storedRow; secondRow; otherRow]; sequence := 3 |}.

Definition textRequest : Request (option Z) :=
  {| headers := {[ "content-type" := "text/plain"; "cf-connecting-ip" := "1.2.3.4" ]};
     json := None;
     formData := None;
     cf := None |}.

Definition brokenFormRequest : Request (option Z) :=
  {| headers := {[ "content-type" := "application/x-www-form-urlencoded" ]};
     json := None;
     formData := None;
     cf := None |}.

Definition sampleFields : list (string * string) :=
  [("email", " User@Example.COM "); ("use_case", "Try it out")].

(** * Properties *)

(** ** Strings *)

Module JsStringFacts.
Import JsString.

Lemma length_pos_iff s : (length s >? 0) = true <-> s <> "".
Proof.
  unfold length. destruct s as [|c r]; simpl.
  - split; [discriminate | congruence].
  - split; [discriminate | intros _; apply Z.gtb_lt; lia].
Qed.

(** What [trimStart] returns does not start with white space. *)
Lemma trimStart_head s :
  match trimStart s with
  | String c _ => isWhiteSpace c = false
  | EmptyString => True
  end.
Proof.
  induction s as [|c r IH]; simpl; [exact I|].
  destruct (isWhiteSpace c) eqn:E; [exact IH | exact E].
Qed.

Lemma trimStart_fixed c r : isWhiteSpace c = false -> trimStart (String c r) = String c r.
Proof. intros E. simpl. now rewrite E. Qed.

Lemma trimEnd_head c r :
  isWhiteSpace c = false -> exists r', trimEnd (String c r) = String c r'.
Proof.
  intros E. simpl. destruct (trimEnd r) as [|c' r'].
  - rewrite E. now exists "".
  - now exists (String c' r').
Qed.

Lemma trimEnd_idem s : trimEnd (trimEnd s) = trimEnd s.
Proof.
  induction s as [|c r IH]; simpl; [reflexivity|].
  destruct (trimEnd r) as [|c' r'] eqn:E.
  - destruct (isWhiteSpace c) eqn:W; simpl; [reflexivity | now rewrite W].
  - cbn [trimEnd] in *. fold trimEnd in *.
    change (trimEnd (String c (String c' r'))) with
      (match trimEnd (String c' r') with
       | EmptyString => if isWhiteSpace c then EmptyString else String c EmptyString
       | r'' => String c r''
       end).
    now rewrite IH.
Qed.

Lemma trim_idem s : trim (trim s) = trim s.
Proof.
  unfold trim. pose proof (trimStart_head s) as H.
  destruct (trimStart s) as [|c r]; [reflexivity|].
  destruct (trimEnd_head c r H) as [r' E]. rewrite E.
  rewrite (trimStart_fixed c r' H), <- E. apply trimEnd_idem.
Qed.

Lemma toLowerCaseUnit_idem c : toLowerCaseUnit (toLowerCaseUnit c) = toLowerCaseUnit c.
Proof. destruct c as [[] [] [] [] [] [] [] []]; reflexivity. Qed.

Lemma toLowerCase_idem s : toLowerCase (toLowerCase s) = toLowerCase s.
Proof.
  induction s as [|c r IH]; simpl; [reflexivity|].
  now rewrite toLowerCaseUnit_idem, IH.
Qed.

(** [splitHead sep s] is the part of [s] before its first [sep]. *)
Lemma splitHead_spec sep s :
  exists rest,
    s = splitHead sep s ++ rest
    /\ JsString.includes (String sep "") (splitHead sep s) = false
    /\ (rest = "" \/ exists rest', rest = String sep rest').
Proof.
  induction s as [|c r (rest & E & N & R)]; simpl.
  - exists "". repeat split; auto.
  - destruct (Ascii.eqb_spec c sep) as [->|Hne].
    + exists (String sep r). repeat split; eauto.
    + exists rest. split; [|split; [|exact R]].
      * change (String c r = String c (splitHead sep r ++ rest)). now rewrite <- E.
      * simpl. destruct (Ascii.eqb_spec sep c) as [->|_]; [congruence|].
        simpl. exact N.
Qed.

Lemma trimStart_spec s :
  exists l, s = l ++ trimStart s
            /\ all isWhiteSpace l = true
            /\ headIs isWhiteSpace (trimStart s) = false.
Proof.
  induction s as [|c s (l & E & Hl & Hh)].
  - now exists "".
  - simpl. destruct (isWhiteSpace c) eqn:W.
    + exists (String c l). split; [|split].
      * change (String c s = String c (l ++ trimStart s)). now rewrite <- E.
      * simpl. now rewrite W.
      * exact Hh.
    + exists "". split; [reflexivity|]. split; [reflexivity|exact W].
Qed.

Lemma trimEnd_spec s :
  exists r, s = trimEnd s ++ r
            /\ all isWhiteSpace r = true
            /\ lastIs isWhiteSpace (trimEnd s) = false
            /\ (headIs isWhiteSpace s = false -> headIs isWhiteSpace (trimEnd s) = false).
Proof.
  induction s as [|c s (r & E & Hr & Hl & Hh)].
  - now exists "".
  - simpl. destruct (trimEnd s) as [|c' s'] eqn:T.
    + destruct (isWhiteSpace c) eqn:W.
      * exists (String c r). split; [|split; [|split]].
        -- change (String c s = String c ("" ++ r)). now rewrite <- E.
        -- simpl. now rewrite W.
        -- reflexivity.
        -- discriminate.
      * exists r. split; [|split; [|split]].
        -- change (String c s = String c ("" ++ r)). now rewrite <- E.
        -- exact Hr.
        -- exact W.
        -- intros _. exact W.
    + exists r. split; [|split; [|split]].
      * change (String c s = String c (String c' s' ++ r)). now rewrite <- E.
      * exact Hr.
      * exact Hl.
      * intros H. exact H.
Qed.

(** [trim] takes white space, and nothing but white space, off both ends. *)
Lemma trim_spec s :
  exists l r, s = l ++ trim s ++ r
              /\ all isWhiteSpace l = true /\ all isWhiteSpace r = true
              /\ headIs isWhiteSpace (trim s) = false
              /\ lastIs isWhiteSpace (trim s) = false.
Proof.
  destruct (trimStart_spec s) as (l & El & Hl & Hh).
  destruct (trimEnd_spec (trimStart s)) as (r & Er & Hr & Hlast & Hhead).
  exists l, r. unfold trim. split; [now rewrite <- Er|]. auto.
Qed.

End JsStringFacts.

(** ** The calendar *)

Module JsDateFacts.
Import JsDate.

Ltac divmod := Z.div_mod_to_equations; lia.

Lemma YearFromDay_spec d :
  DayFromYear (YearFromDay d) <= d < DayFromYear (YearFromDay d + 1).
Proof.
  unfold YearFromDay.
  destruct (Z.ltb_spec d (DayFromYear (1970 + d * 400 / 146097))) as [H1|H1];
    [|destruct (Z.leb_spec (DayFromYear (1970 + d * 400 / 146097 + 1)) d) as [H2|H2]];
    unfold DayFromYear in *; divmod.
Qed.

Lemma YearFromDay_lower d : 0 <= d -> 1970 <= YearFromDay d.
Proof.
  intros Hd. pose proof (YearFromDay_spec d) as [_ H].
  unfold DayFromYear in H. divmod.
Qed.

Lemma YearFromDay_nonneg d : -719528 <= d -> 0 <= YearFromDay d.
Proof.
  intros Hd. pose proof (YearFromDay_spec d) as [_ H].
  unfold DayFromYear in H. divmod.
Qed.

Lemma YearFromDay_upper d : d < 2932897 -> YearFromDay d <= 9999.
Proof.
  intros Hd. pose proof (YearFromDay_spec d) as [H _].
  unfold DayFromYear in H. divmod.
Qed.

Lemma DayFromYear_succ y :
  DayFromYear (y + 1) = DayFromYear y + 365 + (if isLeapYear y then 1 else 0).
Proof.
  unfold DayFromYear, isLeapYear.
  destruct (Z.eqb_spec (y mod 4) 0), (Z.eqb_spec (y mod 100) 0),
    (Z.eqb_spec (y mod 400) 0); simpl; divmod.
Qed.

Lemma DayWithinYear_range t :
  0 <= DayWithinYear t < 365 + (if InLeapYear t then 1 else 0).
Proof.
  unfold DayWithinYear, InLeapYear, YearFromTime.
  pose proof (YearFromDay_spec (Day t)) as H.
  rewrite DayFromYear_succ in H. lia.
Qed.

Lemma MonthFromDayWithinYear_range leap d :
  0 <= MonthFromDayWithinYear leap d <= 11.
Proof.
  unfold MonthFromDayWithinYear.
  repeat match goal with |- context [if ?b then _ else _] => destruct b end; lia.
Qed.

Lemma MonthFromTime_range t : 0 <= MonthFromTime t <= 11.
Proof. apply MonthFromDayWithinYear_range. Qed.

Lemma DateFromTime_range t : 1 <= DateFromTime t <= 31.
Proof.
  unfold DateFromTime, MonthFromTime.
  pose proof (DayWithinYear_range t) as H.
  unfold MonthFromDayWithinYear.
  destruct (InLeapYear t); cbn [monthStart] in *;
  repeat match goal with
         | |- context [if ?a <? ?b then _ else _] => destruct (Z.ltb_spec a b)
         end; cbn [monthStart]; lia.
Qed.

(** Taking a time value apart and putting its day together again. *)
Lemma MakeDay_parts t k :
  MakeDay (YearFromTime t) (MonthFromTime t) (DateFromTime t + k) = Day t + k.
Proof.
  pose proof (MonthFromTime_range t) as Hm.
  unfold MakeDay.
  replace (MonthFromTime t / 12) with 0 by divmod.
  replace (MonthFromTime t mod 12) with (MonthFromTime t) by divmod.
  rewrite Z.add_0_r.
  unfold DateFromTime, DayWithinYear, InLeapYear. lia.
Qed.

Lemma YearFromTime_since_epoch t : 0 <= t -> 1970 <= YearFromTime t.
Proof.
  intros Ht. apply YearFromDay_lower. unfold Day, msPerDay. divmod.
Qed.

Lemma UTC_parts t k h m s ms :
  ~ (0 <= YearFromTime t <= 99) ->
  UTC (YearFromTime t) (MonthFromTime t) (DateFromTime t + k) h m s ms
  = TimeClip ((Day t + k) * msPerDay + MakeTime h m s ms).
Proof.
  intros Hy. unfold UTC.
  replace ((0 <=? YearFromTime t) && (YearFromTime t <=? 99)) with false.
  - rewrite MakeDay_parts. reflexivity.
  - symmetry. apply andb_false_iff.
    destruct (Z.leb_spec 0 (YearFromTime t)); [right; apply Z.leb_gt; lia | now left].
Qed.

End JsDateFacts.

(** ** ISO timestamps as text *)

Module IsoFacts.
Import JsDate.

Lemma append_cons c (a s : string) : String c a ++ s = String c (a ++ s).
Proof. reflexivity. Qed.

Lemma append_empty (s : string) : "" ++ s = s.
Proof. reflexivity. Qed.

Lemma append_assoc (a b c : string) : (a ++ b) ++ c = a ++ (b ++ c).
Proof.
  induction a as [|x a IH]; [reflexivity|].
  now rewrite !append_cons, IH.
Qed.

Lemma compare_refl s : String.compare s s = Eq.
Proof.
  induction s as [|c s IH]; simpl; [reflexivity|].
  replace (Ascii.compare c c) with Eq; [exact IH|].
  symmetry. unfold Ascii.compare. apply N.compare_refl.
Qed.

(** Comparing two strings with prefixes of one length: the prefixes
    decide, and the rest only when they are equal. *)
Lemma compare_append a b x y :
  String.length a = String.length b ->
  String.compare (a ++ x) (b ++ y)
  = match String.compare a b with
    | Eq => String.compare x y
    | c => c
    end.
Proof.
  revert b. induction a as [|c a IH]; intros [|d b] Hl; try discriminate Hl.
  - reflexivity.
  - rewrite !append_cons. simpl.
    destruct (Ascii.compare c d); [|reflexivity..].
    apply IH. now injection Hl.
Qed.

Lemma decimal_append w n tail : decimal w n tail = decimal w n "" ++ tail.
Proof.
  revert n tail. induction w as [|w IH]; intros n tail; simpl; [reflexivity|].
  rewrite (IH _ (String _ tail)), (IH _ (String _ "")), append_assoc.
  reflexivity.
Qed.

Lemma length_append a b : String.length (a ++ b) = (String.length a + String.length b)%nat.
Proof.
  induction a as [|c a IH]; [reflexivity|].
  rewrite append_cons. simpl. now rewrite IH.
Qed.

Lemma decimal_length w n : String.length (decimal w n "") = w.
Proof.
  revert n. induction w as [|w IH]; intros n; simpl; [reflexivity|].
  rewrite decimal_append, length_append, IH. simpl. lia.
Qed.

Lemma digitChar_compare a b :
  Ascii.compare (digitChar a) (digitChar b) = (a mod 10 ?= b mod 10).
Proof.
  unfold Ascii.compare, digitChar.
  pose proof (Z.mod_pos_bound a 10 eq_refl) as Ha.
  pose proof (Z.mod_pos_bound b 10 eq_refl) as Hb.
  rewrite !N_ascii_embedding by lia.
  rewrite Z2N.inj_compare by lia.
  apply Z.add_compare_mono_l.
Qed.

(** Fixed-width decimals compare as the numbers they write. *)
Lemma decimal_compare w a b :
  0 <= a < 10 ^ Z.of_nat w -> 0 <= b < 10 ^ Z.of_nat w ->
  String.compare (decimal w a "") (decimal w b "") = (a ?= b).
Proof.
  revert a b. induction w as [|w IH]; intros a b Ha Hb.
  - simpl in *. assert (a = 0) as -> by lia. assert (b = 0) as -> by lia. reflexivity.
  - rewrite Nat2Z.inj_succ, Z.pow_succ_r in Ha, Hb by lia.
    simpl. rewrite (decimal_append w (a / 10)), (decimal_append w (b / 10)).
    rewrite compare_append by (now rewrite !decimal_length).
    rewrite IH by (Z.div_mod_to_equations; lia).
    simpl. rewrite digitChar_compare.
    destruct (Z.compare_spec (a / 10) (b / 10)) as [E|E|E];
      destruct (Z.compare_spec (a mod 10) (b mod 10)) as [F|F|F];
      symmetry; first [apply Z.compare_eq_iff | apply Z.compare_lt_iff | apply Z.compare_gt_iff];
      Z.div_mod_to_equations; lia.
Qed.



Lemma isoDateThen_append t tail : isoDateThen t tail = isoDate t ++ tail.
Proof.
  unfold isoDate, isoDateThen.
  rewrite (decimal_append 2 (DateFromTime t) tail).
  rewrite (decimal_append 2 (MonthFromTime t + 1) (String _ (_ ++ tail))).
  rewrite (decimal_append 4 _ (String _ (_ ++ String _ (_ ++ tail)))).
  rewrite (decimal_append 2 (MonthFromTime t + 1) (String _ (decimal _ _ ""))).
  rewrite (decimal_append 4 _ (String _ (_ ++ String _ (decimal _ _ "")))).
  repeat (rewrite append_assoc || rewrite append_cons).
  reflexivity.
Qed.

Lemma toISOString_split t :
  0 <= YearFromTime t <= 9999 -> toISOString t = isoDate t ++ isoTime t.
Proof.
  intros [H0 H1]. rewrite <- isoDateThen_append.
  unfold toISOString, yearString, isoDateThen, isoTime.
  apply Z.leb_le in H0, H1. rewrite H0, H1. reflexivity.
Qed.

Lemma isoDate_length t : String.length (isoDate t) = 10%nat.
Proof.
  unfold isoDate, isoDateThen.
  rewrite (decimal_append 4), length_append, decimal_length.
  cbn [String.length]. rewrite (decimal_append 2), length_append, decimal_length.
  cbn [String.length]. now rewrite decimal_length.
Qed.


Lemma isoDate_of_Day t u : Day t = Day u -> isoDate t = isoDate u.
Proof.
  intros E. unfold isoDate, isoDateThen, DateFromTime, MonthFromTime,
    InLeapYear, DayWithinYear, YearFromTime. now rewrite E.
Qed.

Lemma isoDate_compare t u :
  0 <= YearFromTime t <= 9999 -> 0 <= YearFromTime u <= 9999 ->
  String.compare (isoDate t) (isoDate u)
  = match YearFromTime t ?= YearFromTime u with
    | Eq => match MonthFromTime t ?= MonthFromTime u with
            | Eq => DateFromTime t ?= DateFromTime u
            | c => c
            end
    | c => c
    end.
Proof.
  intros Ht Hu.
  pose proof (JsDateFacts.MonthFromTime_range t).
  pose proof (JsDateFacts.MonthFromTime_range u).
  pose proof (JsDateFacts.DateFromTime_range t).
  pose proof (JsDateFacts.DateFromTime_range u).
  unfold isoDate, isoDateThen.
  rewrite (decimal_append 4 (YearFromTime t)), (decimal_append 4 (YearFromTime u)).
  rewrite compare_append, decimal_compare by (rewrite ?decimal_length; simpl; lia).
  destruct (YearFromTime t ?= YearFromTime u); [|reflexivity..].
  cbn [String.compare]. change (Ascii.compare "-" "-") with Eq. cbv iota.
  rewrite (decimal_append 2 (MonthFromTime t + 1)), (decimal_append 2 (MonthFromTime u + 1)).
  rewrite compare_append, decimal_compare by (rewrite ?decimal_length; simpl; lia).
  rewrite (Z.add_comm (MonthFromTime t)), (Z.add_comm (MonthFromTime u)), Z.add_compare_mono_l.
  destruct (MonthFromTime t ?= MonthFromTime u); [|reflexivity..].
  cbn [String.compare]. change (Ascii.compare "-" "-") with Eq. cbv iota.
  apply decimal_compare; simpl; lia.
Qed.

(** In the years 0 to 9999 the date part determines the day. *)
Lemma isoDate_inj t u :
  0 <= YearFromTime t <= 9999 -> 0 <= YearFromTime u <= 9999 ->
  isoDate t = isoDate u -> Day t = Day u.
Proof.
  intros Ht Hu E.
  pose proof (isoDate_compare t u Ht Hu) as C.
  rewrite E, compare_refl in C.
  destruct (Z.compare_spec (YearFromTime t) (YearFromTime u)) as [Ey| |]; try discriminate C.
  destruct (Z.compare_spec (MonthFromTime t) (MonthFromTime u)) as [Em| |]; try discriminate C.
  symmetry in C. apply Z.compare_eq_iff in C.
  rewrite <- (Z.add_0_r (Day t)), <- (Z.add_0_r (Day u)).
  rewrite <- (JsDateFacts.MakeDay_parts t 0), <- (JsDateFacts.MakeDay_parts u 0).
  now rewrite Ey, Em, C.
Qed.

Lemma time_parts t :
  TimeWithinDay t
  = HourFromTime t * msPerHour + MinFromTime t * msPerMinute
    + SecFromTime t * msPerSecond + msFromTime t
  /\ 0 <= HourFromTime t < 24 /\ 0 <= MinFromTime t < 60
  /\ 0 <= SecFromTime t < 60 /\ 0 <= msFromTime t < 1000.
Proof.
  unfold TimeWithinDay, HourFromTime, MinFromTime, SecFromTime, msFromTime,
    msPerDay, msPerHour, msPerMinute, msPerSecond.
  Z.div_mod_to_equations. lia.
Qed.

(** The time parts compare as the times of day they write. *)
Lemma isoTime_compare t u :
  String.compare (isoTime t) (isoTime u) = (TimeWithinDay t ?= TimeWithinDay u).
Proof.
  destruct (time_parts t) as (-> & Hh & Hm & Hs & Hms).
  destruct (time_parts u) as (-> & Hh' & Hm' & Hs' & Hms').
  unfold isoTime. cbn [String.compare]. change (Ascii.compare "T" "T") with Eq. cbv iota.
  rewrite (decimal_append 2 (HourFromTime t)), (decimal_append 2 (HourFromTime u)).
  rewrite compare_append, decimal_compare by (rewrite ?decimal_length; simpl; lia).
  cbn [String.compare]. change (Ascii.compare ":" ":") with Eq. cbv iota.
  rewrite (decimal_append 2 (MinFromTime t)), (decimal_append 2 (MinFromTime u)).
  rewrite compare_append, decimal_compare by (rewrite ?decimal_length; simpl; lia).
  cbn [String.compare]. change (Ascii.compare ":" ":") with Eq. cbv iota.
  rewrite (decimal_append 2 (SecFromTime t)), (decimal_append 2 (SecFromTime u)).
  rewrite compare_append, decimal_compare by (rewrite ?decimal_length; simpl; lia).
  cbn [String.compare]. change (Ascii.compare "." ".") with Eq. cbv iota.
  rewrite (decimal_append 3 (msFromTime t)), (decimal_append 3 (msFromTime u)).
  rewrite compare_append, decimal_compare by (rewrite ?decimal_length; simpl; lia).
  rewrite compare_refl.
  unfold msPerHour, msPerMinute, msPerSecond.
  destruct (Z.compare_spec (HourFromTime t) (HourFromTime u));
    destruct (Z.compare_spec (MinFromTime t) (MinFromTime u));
    destruct (Z.compare_spec (SecFromTime t) (SecFromTime u));
    destruct (Z.compare_spec (msFromTime t) (msFromTime u));
    symmetry;
    first [apply Z.compare_eq_iff | apply Z.compare_lt_iff | apply Z.compare_gt_iff];
    lia.
Qed.

End IsoFacts.

(** ** The UTC day as a window of timestamps *)

Module WindowFacts.
Import JsDate JsDateFacts IsoFacts.

Lemma Day_utcDayStart now : Day (utcDayStart now) = Day now.
Proof. unfold utcDayStart, Day, msPerDay. Z.div_mod_to_equations. lia. Qed.

Lemma Day_utcDayEnd now : Day (utcDayEnd now) = Day now.
Proof. unfold utcDayEnd, utcDayStart, Day, msPerDay. Z.div_mod_to_equations. lia. Qed.

Lemma TimeWithinDay_utcDayStart now : TimeWithinDay (utcDayStart now) = 0.
Proof. unfold utcDayStart, TimeWithinDay, Day, msPerDay. Z.div_mod_to_equations. lia. Qed.

Lemma TimeWithinDay_utcDayEnd now : TimeWithinDay (utcDayEnd now) = 86399999.
Proof.
  unfold utcDayEnd, utcDayStart, TimeWithinDay, Day, msPerDay.
  Z.div_mod_to_equations. lia.
Qed.

Lemma utcDay_bounds now : utcDayStart now <= now <= utcDayEnd now.
Proof. unfold utcDayEnd, utcDayStart, Day, msPerDay. Z.div_mod_to_equations. lia. Qed.

Lemma same_Day_iff now t : Day t = Day now <-> utcDayStart now <= t <= utcDayEnd now.
Proof.
  unfold utcDayEnd, utcDayStart, Day, msPerDay.
  split; intros; Z.div_mod_to_equations; lia.
Qed.

Lemma fourDigitYear t : fourDigitYearTime t -> 0 <= YearFromTime t <= 9999.
Proof.
  intros Ht. unfold YearFromTime.
  assert (-719528 <= Day t < 2932897) as Hd
    by (unfold fourDigitYearTime, Day, msPerDay, firstFourDigitYearTime,
          lastFourDigitYearTime in *; Z.div_mod_to_equations; lia).
  pose proof (YearFromDay_nonneg (Day t)). pose proof (YearFromDay_upper (Day t)). lia.
Qed.

Lemma YearFromTime_of_Day t u : Day t = Day u -> YearFromTime t = YearFromTime u.
Proof. unfold YearFromTime. now intros ->. Qed.

(** A timestamp the worker wrote lies in the text window of a day exactly
    when its instant falls on that day. *)
Lemma iso_window now t :
  fourDigitYearTime now -> fourDigitYearTime t ->
  String.leb (toISOString (utcDayStart now)) (toISOString t)
  && String.leb (toISOString t) (toISOString (utcDayEnd now)) = true
  <-> Day t = Day now.
Proof.
  intros Hnow Ht.
  pose proof (fourDigitYear now Hnow) as Yn. pose proof (fourDigitYear t Ht) as Yt.
  assert (0 <= YearFromTime (utcDayStart now) <= 9999) as Ys
    by now rewrite (YearFromTime_of_Day _ _ (Day_utcDayStart now)).
  assert (0 <= YearFromTime (utcDayEnd now) <= 9999) as Ye
    by now rewrite (YearFromTime_of_Day _ _ (Day_utcDayEnd now)).
  rewrite !toISOString_split by assumption.
  rewrite (isoDate_of_Day _ _ (Day_utcDayStart now)), (isoDate_of_Day _ _ (Day_utcDayEnd now)).
  unfold String.leb.
  rewrite !compare_append by now rewrite !isoDate_length.
  rewrite !isoTime_compare, TimeWithinDay_utcDayStart, TimeWithinDay_utcDayEnd.
  rewrite (String.compare_antisym (isoDate now) (isoDate t)).
  pose proof (Z.mod_pos_bound t msPerDay eq_refl) as Hmod. fold (TimeWithinDay t) in Hmod.
  unfold msPerDay in Hmod.
  split.
  - intros W. apply isoDate_inj; [assumption..|].
    destruct (String.compare (isoDate t) (isoDate now)) eqn:C; simpl in W.
    + now apply String.compare_eq_iff.
    + discriminate W.
    + discriminate W.
  - intros E. rewrite (isoDate_of_Day _ _ E), compare_refl. cbn [CompOpp].
    destruct (Z.compare_spec 0 (TimeWithinDay t));
      destruct (Z.compare_spec (TimeWithinDay t) 86399999); try reflexivity; lia.
Qed.

End WindowFacts.

(** ** Reading integers *)

Module JsNumberFacts.
Import JsNumber.

Lemma trimStart_white ws rest :
  JsString.all JsString.isWhiteSpace ws = true ->
  JsString.headIs JsString.isWhiteSpace rest = false ->
  JsString.trimStart (ws ++ rest) = rest.
Proof.
  intros Hws Hrest. induction ws as [|c ws IH].
  - destruct rest as [|c r]; [reflexivity|]. simpl in *. now rewrite Hrest.
  - simpl in Hws. apply andb_true_iff in Hws as [Hc Hws].
    rewrite IsoFacts.append_cons. simpl. rewrite Hc. now apply IH.
Qed.

Lemma digitRun_digits ds rest acc :
  JsString.all JsString.isDigit ds = true -> JsString.headIs JsString.isDigit rest = false ->
  digitRun (ds ++ rest) acc
  = match ds with
    | EmptyString => acc
    | _ => Some (digitsValueFrom (default 0 acc) ds)
    end.
Proof.
  intros Hds Hrest. revert acc. induction ds as [|c ds IH]; intros acc.
  - destruct rest as [|c r]; [reflexivity|]. simpl in *. now rewrite Hrest.
  - simpl in Hds. apply andb_true_iff in Hds as [Hc Hds].
    rewrite IsoFacts.append_cons. simpl. rewrite Hc, (IH Hds).
    now destruct ds.
Qed.

Lemma digitValue_range c : JsString.isDigit c = true -> 0 <= JsString.digitValue c <= 9.
Proof.
  unfold JsString.isDigit, JsString.digitValue. intros H.
  apply andb_true_iff in H as [L U]. apply N.leb_le in L, U. lia.
Qed.

Lemma digitsValueFrom_nonneg ds acc :
  JsString.all JsString.isDigit ds = true -> 0 <= acc -> 0 <= digitsValueFrom acc ds.
Proof.
  revert acc. induction ds as [|c ds IH]; intros acc Hds Hacc; [exact Hacc|].
  simpl in Hds. apply andb_true_iff in Hds as [Hc Hds].
  simpl. apply IH; [exact Hds|]. pose proof (digitValue_range c Hc). lia.
Qed.

Lemma roundToDouble_small n : n < 2 ^ 53 -> roundToDouble n = Some n.
Proof.
  intros H. unfold roundToDouble.
  destruct (Z.ltb_spec n (2 ^ 53)); [reflexivity | lia].
Qed.

(** Rounding keeps a number that is at least 1 at least 1. *)
Lemma roundToDouble_pos n d : 1 <= n -> roundToDouble n = Some d -> 1 <= d.
Proof.
  intros Hn. unfold roundToDouble.
  destruct (Z.ltb_spec n (2 ^ 53)) as [_|Hbig]; [now intros [= <-]|].
  set (e := Z.log2 n - 52).
  assert (53 <= Z.log2 n) as Hlog by (apply Z.log2_le_pow2; lia).
  assert (0 < 2 ^ e) as He by (apply Z.pow_pos_nonneg; lia).
  assert (2 ^ e <= n) as Hle.
  { transitivity (2 ^ Z.log2 n); [apply Z.pow_le_mono_r; lia|].
    apply Z.log2_spec. lia. }
  assert (1 <= n / 2 ^ e) as Hq by (apply Z.div_le_lower_bound; lia).
  destruct (_ || _); destruct (_ <? 2 ^ 1024); intros [= <-]; nia.
Qed.

(** A text that starts, after white space and an optional plus sign, with
    digits: [parseInt] returns the number they write, rounded to a double
    (or infinity), whatever follows them. *)
Lemma parseInt_leading_digits ws sign ds rest :
  JsString.all JsString.isWhiteSpace ws = true -> sign = "" \/ sign = "+" \/ sign = "-" ->
  ds <> "" -> JsString.all JsString.isDigit ds = true ->
  JsString.headIs JsString.isDigit rest = false ->
  parseInt (ws ++ sign ++ ds ++ rest)
  = match roundToDouble (digitsValue ds) with
    | Some n => Integer (if String.eqb sign "-" then - n else n)
    | None => Infinity (String.eqb sign "-")
    end.
Proof.
  intros Hws Hsign Hne Hds Hrest. unfold parseInt.
  destruct ds as [|c ds]; [congruence|]. clear Hne.
  assert (JsString.isDigit c = true) as Hc
    by (simpl in Hds; now apply andb_true_iff in Hds as [Hc _]).
  assert (JsString.isWhiteSpace c = false) as Hcw.
  { revert Hc. destruct c as [[] [] [] [] [] [] [] []]; vm_compute; intros; congruence. }
  rewrite trimStart_white; [|exact Hws|now destruct Hsign as [-> | [-> | ->]]].
  destruct Hsign as [-> | [-> | ->]]; cbn [String.eqb Ascii.eqb Bool.eqb].
  - rewrite IsoFacts.append_empty, IsoFacts.append_cons.
    replace (match c with "-"%char => _ | _ => _ end)
      with (false, String c (ds ++ rest)).
    + rewrite <- IsoFacts.append_cons, (digitRun_digits _ _ _ Hds Hrest). reflexivity.
    + revert Hc. destruct c as [[] [] [] [] [] [] [] []]; vm_compute; intros; congruence.
  - rewrite IsoFacts.append_cons, IsoFacts.append_empty.
    rewrite (digitRun_digits _ _ _ Hds Hrest). reflexivity.
  - rewrite IsoFacts.append_cons, IsoFacts.append_empty.
    rewrite (digitRun_digits _ _ _ Hds Hrest). reflexivity.
Qed.

(** A text without digits where [parseInt] looks for them is no number. *)
Lemma parseInt_no_digits ws sign rest :
  JsString.all JsString.isWhiteSpace ws = true -> sign = "" \/ sign = "+" \/ sign = "-" ->
  JsString.headIs JsString.isDigit rest = false ->
  (sign = "" -> JsString.headIs JsString.isWhiteSpace rest = false
                /\ JsString.headIs isSign rest = false) ->
  parseInt (ws ++ sign ++ rest) = NaN.
Proof.
  intros Hws Hsign Hrest Hbare. unfold parseInt.
  rewrite trimStart_white; [|exact Hws|].
  - destruct Hsign as [-> | [-> | ->]].
    + destruct (Hbare eq_refl) as [_ Hs]. rewrite IsoFacts.append_empty.
      destruct rest as [|c r]; [reflexivity|].
      simpl in Hrest, Hs. apply orb_false_iff in Hs as [Hp Hm].
      replace (match c with "-"%char => _ | _ => _ end) with (false, String c r).
      * simpl. now rewrite Hrest.
      * revert Hp Hm. destruct c as [[] [] [] [] [] [] [] []]; vm_compute; intros; congruence.
    + rewrite IsoFacts.append_cons, IsoFacts.append_empty.
      destruct rest as [|c r]; [reflexivity|]. simpl in *. now rewrite Hrest.
    + rewrite IsoFacts.append_cons, IsoFacts.append_empty.
      destruct rest as [|c r]; [reflexivity|]. simpl in *. now rewrite Hrest.
  - destruct Hsign as [-> | [-> | ->]]; [|reflexivity..].
    rewrite IsoFacts.append_empty. now destruct (Hbare eq_refl).
Qed.

End JsNumberFacts.

(** ** The worker *)

Section WorkerFacts.

Context {number : Type} {runtime : Runtime number}.

Implicit Types (request : Request number) (db : Store number).
Implicit Types (row old excluded : Entry.t number) (value raw : JsValue number).

(** *** The day bounds under a plausible clock *)

Lemma TimeClip_valid t : - JsDate.maxTime <= t <= JsDate.maxTime -> JsDate.TimeClip t = Some t.
Proof.
  intros H. unfold JsDate.TimeClip.
  destruct (Z.leb_spec (Z.abs t) JsDate.maxTime); [reflexivity | lia].
Qed.

Lemma plausibleClock_since_epoch now : 0 <= now < JsDate.maxTime -> plausibleClock now.
Proof.
  intros H. split; [unfold JsDate.maxTime in *; lia|].
  pose proof (JsDateFacts.YearFromTime_since_epoch now). lia.
Qed.

Lemma utcDayStart_range now :
  plausibleClock now ->
  - JsDate.maxTime <= utcDayStart now
  /\ utcDayStart now + JsDate.msPerDay <= JsDate.maxTime.
Proof.
  unfold plausibleClock, utcDayStart, JsDate.Day, JsDate.maxTime, JsDate.msPerDay.
  intros [H _]. Z.div_mod_to_equations. lia.
Qed.

Lemma startOfUtcDayIso_plausible now :
  plausibleClock now ->
  startOfUtcDayIso now = Some (JsDate.toISOString (utcDayStart now)).
Proof.
  intros H. pose proof (utcDayStart_range now H) as R.
  unfold startOfUtcDayIso.
  rewrite <- (Z.add_0_r (JsDate.DateFromTime now)).
  rewrite JsDateFacts.UTC_parts by apply H.
  rewrite Z.add_0_r. change (JsDate.MakeTime 0 0 0 0) with 0. rewrite Z.add_0_r.
  fold (utcDayStart now).
  rewrite TimeClip_valid; [reflexivity|].
  unfold JsDate.msPerDay, JsDate.maxTime in *. lia.
Qed.

Lemma endOfUtcDayIso_plausible now :
  plausibleClock now ->
  endOfUtcDayIso now = Some (JsDate.toISOString (utcDayEnd now)).
Proof.
  intros H. pose proof (utcDayStart_range now H) as R.
  unfold endOfUtcDayIso.
  rewrite <- (Z.add_0_r (JsDate.DateFromTime now)).
  rewrite JsDateFacts.UTC_parts by apply H.
  rewrite Z.add_0_r. change (JsDate.MakeTime 23 59 59 999) with 86399999.
  fold (utcDayStart now). fold (utcDayEnd now).
  rewrite TimeClip_valid; [reflexivity|].
  unfold utcDayEnd, JsDate.msPerDay, JsDate.maxTime in *. lia.
Qed.

Lemma secondsUntilNextUtcDay_plausible now :
  plausibleClock now ->
  secondsUntilNextUtcDay now
  = Some (Z.max 1 (JsDate.ceilDiv1000 (nextUtcMidnight now - now))).
Proof.
  intros H. pose proof (utcDayStart_range now H) as R.
  unfold secondsUntilNextUtcDay.
  rewrite JsDateFacts.UTC_parts by apply H.
  change (JsDate.MakeTime 0 0 0 0) with 0. rewrite Z.add_0_r.
  replace ((JsDate.Day now + 1) * JsDate.msPerDay) with (nextUtcMidnight now)
    by (unfold nextUtcMidnight, utcDayStart; lia).
  rewrite TimeClip_valid; [reflexivity|].
  unfold nextUtcMidnight, JsDate.msPerDay, JsDate.maxTime in *. lia.
Qed.

(** Until the next midnight there is more than nothing and at most a day. *)
Lemma ceilDiv1000_nextUtcMidnight now :
  1 <= JsDate.ceilDiv1000 (nextUtcMidnight now - now) <= 86400.
Proof.
  unfold JsDate.ceilDiv1000, nextUtcMidnight, utcDayStart, JsDate.Day, JsDate.msPerDay.
  Z.div_mod_to_equations. lia.
Qed.

Lemma countEntries_utcDay db ipAddress now :
  countEntries db ipAddress (JsDate.toISOString (utcDayStart now))
    (JsDate.toISOString (utcDayEnd now))
  = rowsOfIpOnUtcDayOf db ipAddress now.
Proof.
  unfold countEntries, rowsOfIpOnUtcDayOf. do 2 f_equal.
  apply List.filter_ext. intros row. unfold inWindow, createdOnUtcDayOf.
  now rewrite andb_assoc.
Qed.

(** *** The handler, branch by branch *)

Lemma postWaitlist_plausible env now request db :
  plausibleClock now ->
  postWaitlist env now request db
  = match parseRequestBody request with
    | None => Threw
    | Some raw =>
        match safeParse (normalizePayload raw) with
        | None => Responded invalidPayload db
        | Some payload =>
            if honeypot payload then Responded honeypotAccepted db
            else
              let ipAddress := getConnectingIp (headers request) in
              if parsePositiveInt (WAITLIST_RATE_LIMIT_PER_DAY env) 10
                 <=? rowsOfIpOnUtcDayOf db ipAddress now
              then Responded
                     (rateLimited
                        (Some (Z.max 1 (JsDate.ceilDiv1000 (nextUtcMidnight now - now)))))
                     db
              else Responded accepted
                     (upsert db (boundRow db request payload ipAddress
                                   (JsDate.toISOString now)))
        end
    end.
Proof.
  intros H. unfold postWaitlist.
  destruct (parseRequestBody request) as [raw|]; [|reflexivity].
  destruct (safeParse (normalizePayload raw)) as [payload|]; [|reflexivity].
  destruct (honeypot payload); [reflexivity|].
  rewrite (startOfUtcDayIso_plausible now H), (endOfUtcDayIso_plausible now H),
    (secondsUntilNextUtcDay_plausible now H), countEntries_utcDay.
  cbv zeta. rewrite Z.geb_leb. reflexivity.
Qed.

(** *** Rate limiting *)

(** The text of the two day bounds. *)
Lemma utcDay_texts now :
  JsDate.fourDigitYearTime now ->
  JsDate.toISOString (utcDayStart now) = JsDate.isoDate now ++ "T00:00:00.000Z"
  /\ JsDate.toISOString (utcDayEnd now) = JsDate.isoDate now ++ "T23:59:59.999Z".
Proof.
  intros Hnow. pose proof (WindowFacts.fourDigitYear now Hnow) as Yn.
  rewrite !IsoFacts.toISOString_split.
  - rewrite (IsoFacts.isoDate_of_Day _ _ (WindowFacts.Day_utcDayStart now)),
      (IsoFacts.isoDate_of_Day _ _ (WindowFacts.Day_utcDayEnd now)).
    split; f_equal; unfold JsDate.isoTime, JsDate.HourFromTime, JsDate.MinFromTime,
      JsDate.SecFromTime, JsDate.msFromTime, utcDayEnd, utcDayStart.
    + replace (JsDate.Day now * JsDate.msPerDay / JsDate.msPerHour mod 24) with 0
        by (unfold JsDate.msPerDay, JsDate.msPerHour; Z.div_mod_to_equations; lia).
      replace (JsDate.Day now * JsDate.msPerDay / JsDate.msPerMinute mod 60) with 0
        by (unfold JsDate.msPerDay, JsDate.msPerMinute; Z.div_mod_to_equations; lia).
      replace (JsDate.Day now * JsDate.msPerDay / JsDate.msPerSecond mod 60) with 0
        by (unfold JsDate.msPerDay, JsDate.msPerSecond; Z.div_mod_to_equations; lia).
      replace (JsDate.Day now * JsDate.msPerDay mod JsDate.msPerSecond) with 0
        by (unfold JsDate.msPerDay, JsDate.msPerSecond; Z.div_mod_to_equations; lia).
      reflexivity.
    + replace ((JsDate.Day now * JsDate.msPerDay + 86399999) / JsDate.msPerHour mod 24) with 23
        by (unfold JsDate.msPerDay, JsDate.msPerHour; Z.div_mod_to_equations; lia).
      replace ((JsDate.Day now * JsDate.msPerDay + 86399999) / JsDate.msPerMinute mod 60) with 59
        by (unfold JsDate.msPerDay, JsDate.msPerMinute; Z.div_mod_to_equations; lia).
      replace ((JsDate.Day now * JsDate.msPerDay + 86399999) / JsDate.msPerSecond mod 60) with 59
        by (unfold JsDate.msPerDay, JsDate.msPerSecond; Z.div_mod_to_equations; lia).
      replace ((JsDate.Day now * JsDate.msPerDay + 86399999) mod JsDate.msPerSecond) with 999
        by (unfold JsDate.msPerDay, JsDate.msPerSecond; Z.div_mod_to_equations; lia).
      reflexivity.
  - now rewrite (WindowFacts.YearFromTime_of_Day _ _ (WindowFacts.Day_utcDayEnd now)).
  - now rewrite (WindowFacts.YearFromTime_of_Day _ _ (WindowFacts.Day_utcDayStart now)).
Qed.

(** A row the worker stamped at the instant [t] counts as created on the
    UTC day of [now] exactly when [t] lies between that day's first and
    last millisecond. *)
Lemma createdOnUtcDayOf_stamped now t row :
  JsDate.fourDigitYearTime now -> JsDate.fourDigitYearTime t ->
  Entry.created_at row = JsDate.toISOString t ->
  createdOnUtcDayOf now row = true <-> utcDayStart now <= t <= utcDayEnd now.
Proof.
  intros Hnow Ht E. unfold createdOnUtcDayOf. rewrite E.
  rewrite WindowFacts.iso_window by assumption.
  apply WindowFacts.same_Day_iff.
Qed.

(** C3: a request that clears validation and the honeypot check is
    answered, and the answer is 429 exactly when the rows of the
    requester's IP created on the current UTC day, from 00:00:00.000 to
    23:59:59.999 included, number at least the configured ceiling. *)
Theorem rate_limit_iff env now request db raw payload :
  plausibleClock now ->
  parseRequestBody request = Some raw ->
  safeParse (normalizePayload raw) = Some payload ->
  honeypot payload = false ->
  exists response db',
    postWaitlist env now request db = Responded response db'
    /\ (status response = 429
        <-> parsePositiveInt (WAITLIST_RATE_LIMIT_PER_DAY env) 10
            <= rowsOfIpOnUtcDayOf db (getConnectingIp (headers request)) now)
    /\ (forall row t,
          JsDate.fourDigitYearTime now -> JsDate.fourDigitYearTime t ->
          Entry.created_at row = JsDate.toISOString t ->
          createdOnUtcDayOf now row = true
          <-> utcDayStart now <= t <= utcDayEnd now).
Proof.
  intros Hclock Hraw Hparse Hhoney.
  rewrite (postWaitlist_plausible env now request db Hclock), Hraw, Hparse, Hhoney.
  cbv zeta.
  destruct (Z.leb_spec (parsePositiveInt (WAITLIST_RATE_LIMIT_PER_DAY env) 10)
              (rowsOfIpOnUtcDayOf db (getConnectingIp (headers request)) now)) as [L|L].
  - eexists _, _. split; [reflexivity|]. split.
    + split; [intros _; exact L | reflexivity].
    + intros row t Hn Ht E. now apply createdOnUtcDayOf_stamped.
  - eexists _, _. split; [reflexivity|]. split.
    + split; [discriminate | lia].
    + intros row t Hn Ht E. now apply createdOnUtcDayOf_stamped.
Qed.

(** C7: a rate-limited answer carries one [Retry-After] header, the
    decimal text of the whole seconds (rounded up) from now to the next
    UTC midnight, at least 1; the number lies between 1 and 86400. *)
Theorem retry_after_seconds env now request db response db' :
  plausibleClock now ->
  postWaitlist env now request db = Responded response db' ->
  status response = 429 ->
  exists seconds,
    responseHeaders response = [("Retry-After", JsNumber.toString seconds)]
    /\ seconds = Z.max 1 (JsDate.ceilDiv1000 (nextUtcMidnight now - now))
    /\ 1000 * (seconds - 1) < nextUtcMidnight now - now <= 1000 * seconds
    /\ 1 <= seconds <= 86400.
Proof.
  intros Hclock Hrun Hstatus.
  rewrite (postWaitlist_plausible env now request db Hclock) in Hrun.
  pose proof (ceilDiv1000_nextUtcMidnight now) as R.
  destruct (parseRequestBody request) as [raw|]; [|discriminate Hrun].
  destruct (safeParse (normalizePayload raw)) as [payload|];
    [|injection Hrun as <- _; discriminate Hstatus].
  destruct (honeypot payload); [injection Hrun as <- _; discriminate Hstatus|].
  cbv zeta in Hrun.
  destruct (parsePositiveInt (WAITLIST_RATE_LIMIT_PER_DAY env) 10
            <=? rowsOfIpOnUtcDayOf db (getConnectingIp (headers request)) now);
    [|injection Hrun as <- _; discriminate Hstatus].
  injection Hrun as <- _.
  exists (Z.max 1 (JsDate.ceilDiv1000 (nextUtcMidnight now - now))).
  split; [reflexivity|]. split; [reflexivity|].
  rewrite Z.max_r by lia. split; [|exact R].
  unfold JsDate.ceilDiv1000. Z.div_mod_to_equations. lia.
Qed.

(** *** Validation and the honeypot *)

Lemma toOptionalString_trimmed value s :
  toOptionalString value = Some s -> JsString.trim s = s /\ s <> "".
Proof.
  destruct value as [| | | |s0| |]; try discriminate. simpl.
  destruct (JsString.length (JsString.trim s0) >? 0) eqn:E; [|discriminate].
  intros [= <-]. split; [apply JsStringFacts.trim_idem|].
  now apply JsStringFacts.length_pos_iff.
Qed.

Lemma normalizePayload_trimmed raw :
  (forall e, email (normalizePayload raw) = Some e -> JsString.trim e = e /\ e <> "")
  /\ (forall u, useCase (normalizePayload raw) = Some u -> JsString.trim u = u /\ u <> "")
  /\ (forall w, website (normalizePayload raw) = Some w -> JsString.trim w = w /\ w <> "").
Proof.
  split; [|split]; intros x Hx; exact (toOptionalString_trimmed _ _ Hx).
Qed.

Lemma safeParse_None_iff raw :
  safeParse (normalizePayload raw) = None <-> failsValidation (normalizePayload raw).
Proof.
  destruct (normalizePayload_trimmed raw) as (He & Hu & Hw).
  unfold safeParse, failsValidation, emailMax, optionalTrimmedMax.
  destruct (email (normalizePayload raw)) as [e|]; [|intuition].
  destruct (He e eq_refl) as [-> _]. clear He.
  assert (forall n field,
    (forall u, field = Some u -> JsString.trim u = u /\ u <> "") ->
    match field with
    | Some s => if JsString.length (JsString.trim s) <=? n
                then Some (Some (JsString.trim s)) else None
    | None => Some None
    end = None <-> exists u, field = Some u /\ n < JsString.length u) as Hopt.
  { intros n [u|] Hf.
    - destruct (Hf u eq_refl) as [-> _].
      destruct (Z.leb_spec (JsString.length u) n); split.
      + discriminate.
      + intros (u' & [= <-] & L). lia.
      + intros _. eauto.
      + reflexivity.
    - split; [discriminate | intros (u' & E & _); discriminate E]. }
  pose proof (Hopt 1200 _ Hu) as Pu. pose proof (Hopt 200 _ Hw) as Pw.
  destruct (isEmail e) eqn:Ee; cbn [andb].
  - destruct (Z.leb_spec (JsString.length e) 320) as [Le|Le].
    + destruct (match useCase (normalizePayload raw) with
                | Some s => _ | None => _ end) as [u'|] eqn:Eu.
      * destruct (match website (normalizePayload raw) with
                  | Some s => _ | None => _ end) as [w'|] eqn:Ew.
        -- split; [discriminate|].
           intros [F|[(e' & [= <-] & F)|[(e' & [= <-] & F)|[F|F]]]];
             try discriminate; try congruence; try lia.
           ++ apply Pu in F. discriminate F.
           ++ apply Pw in F. discriminate F.
        -- split; [intros _|reflexivity]. do 4 right. now apply Pw.
      * split; [intros _|reflexivity]. do 3 right. left. now apply Pu.
    + split; [intros _|reflexivity]. do 2 right. left. eauto.
  - split; [intros _|reflexivity]. right. left. eauto.
Qed.

(** C5: when the normalized payload fails validation (no email, an email
    the pattern rejects, an email of more than 320 characters, a use case
    of more than 1200, a website of more than 200), the answer is HTTP 400
    with error [invalid_payload] and the fixed message, and the store is
    as it was. *)
Theorem invalid_payload_rejected env now request db raw :
  parseRequestBody request = Some raw ->
  failsValidation (normalizePayload raw) ->
  postWaitlist env now request db = Responded invalidPayload db
  /\ status invalidPayload = 400
  /\ body invalidPayload
     = {| ok := false; error := Some "invalid_payload";
          message := "Please submit a valid email address." |}.
Proof.
  intros Hraw Hfail. apply safeParse_None_iff in Hfail.
  unfold postWaitlist. rewrite Hraw, Hfail. repeat split.
Qed.


(** *** The upsert *)

Lemma doUpdate_email old excluded : Entry.email (doUpdate old excluded) = Entry.email old.
Proof. reflexivity. Qed.

(** The update branch leaves every email where it was. *)
Lemma map_update_emails excluded (l : list (Entry.t number)) :
  map Entry.email
    (map (fun row => if conflicts excluded row then doUpdate row excluded else row) l)
  = map Entry.email l.
Proof.
  rewrite List.map_map. apply List.map_ext. intros row.
  now destruct (conflicts excluded row).
Qed.

Lemma filter_none {A} (f : A -> bool) (l : list A) :
  (forall x, In x l -> f x = false) -> List.filter f l = [].
Proof.
  induction l as [|x l IH]; intros Hf; [reflexivity|].
  simpl. rewrite (Hf x (or_introl eq_refl)). apply IH.
  intros y Hy. apply Hf. now right.
Qed.

(** Under [UNIQUE(email)] the rows of an email are the one row that has it. *)
Lemma filter_unique_email (l : list (Entry.t number)) old :
  List.NoDup (map Entry.email l) -> In old l ->
  List.filter (fun row => String.eqb (Entry.email row) (Entry.email old)) l = [old].
Proof.
  induction l as [|row l IH]; intros Hnd Hin; [destruct Hin|].
  simpl in Hnd. apply List.NoDup_cons_iff in Hnd as [Hfresh Hnd].
  simpl. destruct Hin as [->|Hin].
  - rewrite String.eqb_refl. f_equal.
    apply filter_none. intros row Hrow.
    destruct (String.eqb_spec (Entry.email row) (Entry.email old)) as [E|_]; [|reflexivity].
    exfalso. apply Hfresh. rewrite <- E. now apply List.in_map.
  - destruct (String.eqb_spec (Entry.email row) (Entry.email old)) as [E|_].
    + exfalso. apply Hfresh. rewrite E. now apply List.in_map.
    + now apply IH.
Qed.

Lemma filter_map_update excluded e (l : list (Entry.t number)) :
  List.filter (fun row => String.eqb (Entry.email row) e)
    (map (fun row => if conflicts excluded row then doUpdate row excluded else row) l)
  = map (fun row => if conflicts excluded row then doUpdate row excluded else row)
      (List.filter (fun row => String.eqb (Entry.email row) e) l).
Proof.
  induction l as [|row l IH]; [reflexivity|].
  simpl. replace (Entry.email (if conflicts excluded row then doUpdate row excluded else row))
    with (Entry.email row) by now destruct (conflicts excluded row).
  destruct (String.eqb (Entry.email row) e); simpl; now rewrite IH.
Qed.

(** The statement on a row whose email the table already holds: that row
    is rewritten in place and nothing else moves. *)
Lemma upsert_conflict db excluded old :
  uniqueEmails db -> In old (rows db) -> Entry.email old = Entry.email excluded ->
  rowsOfEmail (upsert db excluded) (Entry.email excluded) = [doUpdate old excluded]
  /\ List.length (rows (upsert db excluded)) = List.length (rows db)
  /\ sequence (upsert db excluded) = sequence db
  /\ uniqueEmails (upsert db excluded)
  /\ (forall row, In row (rows db) -> Entry.email row <> Entry.email excluded ->
        In row (rows (upsert db excluded))).
Proof.
  intros Hu Hin He. unfold upsert.
  assert (existsb (conflicts excluded) (rows db) = true) as ->.
  { apply List.existsb_exists. exists old. split; [exact Hin|].
    unfold conflicts. rewrite He. apply String.eqb_refl. }
  unfold rowsOfEmail, uniqueEmails. cbn [rows sequence].
  rewrite filter_map_update, map_update_emails, List.length_map, <- He.
  rewrite (filter_unique_email _ old Hu Hin). cbn [map].
  unfold conflicts at 1. rewrite He, String.eqb_refl.
  repeat split; try assumption.
  intros row Hrow Hne. apply List.in_map_iff. exists row. split; [|exact Hrow].
  unfold conflicts. destruct (String.eqb_spec (Entry.email row) (Entry.email excluded));
    [contradiction | reflexivity].
Qed.

(** The statement on a row whose email the table does not hold: the row
    is appended under a fresh rowid. *)
Lemma upsert_fresh db excluded :
  ~ In (Entry.email excluded) (map Entry.email (rows db)) ->
  upsert db excluded
  = {| rows := rows db ++ [excluded]; sequence := Entry.id excluded |}.
Proof.
  intros Hfresh. unfold upsert.
  destruct (existsb (conflicts excluded) (rows db)) eqn:E; [|reflexivity].
  apply List.existsb_exists in E as (row & Hrow & Hc).
  exfalso. apply Hfresh. unfold conflicts in Hc. apply String.eqb_eq in Hc.
  rewrite <- Hc. now apply List.in_map.
Qed.

Lemma upsert_unique db excluded : uniqueEmails db -> uniqueEmails (upsert db excluded).
Proof.
  intros Hu. unfold upsert.
  destruct (existsb (conflicts excluded) (rows db)) eqn:E; unfold uniqueEmails; cbn [rows].
  - now rewrite map_update_emails.
  - rewrite List.map_app. cbn [map].
    apply List.NoDup_app.
    + exact Hu.
    + apply List.NoDup_cons; [intros [] | constructor].
    + intros e He [<-|[]].
      apply List.in_map_iff in He as (row & Hrow & Hin).
      assert (existsb (conflicts excluded) (rows db) = true) as C; [|congruence].
      apply List.existsb_exists. exists row. split; [exact Hin|].
      unfold conflicts. now apply String.eqb_eq.
Qed.

(** An answer 201 means the row was written. *)
Lemma postWaitlist_accepted env now request db response db' :
  postWaitlist env now request db = Responded response db' ->
  status response = 201 ->
  exists raw payload,
    parseRequestBody request = Some raw
    /\ safeParse (normalizePayload raw) = Some payload
    /\ honeypot payload = false
    /\ db' = upsert db (boundRow db request payload (getConnectingIp (headers request))
                           (JsDate.toISOString now)).
Proof.
  unfold postWaitlist. intros Hrun Hstatus.
  destruct (parseRequestBody request) as [raw|] eqn:Hraw; [|discriminate Hrun].
  destruct (safeParse (normalizePayload raw)) as [payload|] eqn:Hparse;
    [|injection Hrun as <- _; discriminate Hstatus].
  destruct (honeypot payload) eqn:Hh; [injection Hrun as <- _; discriminate Hstatus|].
  destruct (startOfUtcDayIso now) as [dayStart|]; [|discriminate Hrun].
  destruct (endOfUtcDayIso now) as [dayEnd|]; [|discriminate Hrun].
  cbv zeta in Hrun.
  destruct (countEntries db _ dayStart dayEnd >=? _);
    injection Hrun as <- <-; [discriminate Hstatus|].
  exists raw, payload. repeat split; assumption.
Qed.

(** An accepted submission keeps the emails of the table unique, and
    leaves a row for the lowercase of the email it submitted. *)
Lemma postWaitlist_unique env now request db response db' :
  uniqueEmails db ->
  postWaitlist env now request db = Responded response db' ->
  uniqueEmails db'.
Proof.
  unfold postWaitlist. intros Hu Hrun.
  destruct (parseRequestBody request) as [raw|]; [|discriminate Hrun].
  destruct (safeParse (normalizePayload raw)) as [payload|];
    [|now injection Hrun as _ <-].
  destruct (honeypot payload); [now injection Hrun as _ <-|].
  destruct (startOfUtcDayIso now) as [dayStart|]; [|discriminate Hrun].
  destruct (endOfUtcDayIso now) as [dayEnd|]; [|discriminate Hrun].
  cbv zeta in Hrun.
  destruct (countEntries db _ dayStart dayEnd >=? _); injection Hrun as _ <-;
    [exact Hu | now apply upsert_unique].
Qed.

Lemma upsert_stored db excluded :
  exists row, In row (rows (upsert db excluded))
              /\ Entry.email row = Entry.email excluded.
Proof.
  unfold upsert. destruct (existsb (conflicts excluded) (rows db)) eqn:E; cbn [rows].
  - apply List.existsb_exists in E as (row & Hrow & Hc).
    exists (doUpdate row excluded). split.
    + apply List.in_map_iff. exists row. now rewrite Hc.
    + unfold conflicts in Hc. now apply String.eqb_eq in Hc.
  - exists excluded. split; [|reflexivity]. apply List.in_or_app. right. now left.
Qed.

Lemma accepted_is_stored env now request db raw payload response db' :
  parseRequestBody request = Some raw ->
  safeParse (normalizePayload raw) = Some payload ->
  postWaitlist env now request db = Responded response db' ->
  status response = 201 ->
  exists row, In row (rows db')
              /\ Entry.email row = JsString.toLowerCase (email payload).
Proof.
  intros Hraw Hparse Hrun Hstatus.
  destruct (postWaitlist_accepted _ _ _ _ _ _ Hrun Hstatus)
    as (raw' & payload' & Hraw' & Hparse' & _ & ->).
  rewrite Hraw in Hraw'. injection Hraw' as <-.
  rewrite Hparse in Hparse'. injection Hparse' as <-.
  apply upsert_stored.
Qed.

(** C1: an accepted resubmission of an email the store already holds (the
    key is the lowercase of what was submitted, so any letter case meets
    it) leaves exactly one row for that lowercase email; the row keeps its
    id and [created_at], takes [updated_at] from this submission, and
    every other column holds this submission's values. *)
Theorem resubmission_updates_in_place env now request db raw payload old response db' :
  uniqueEmails db ->
  parseRequestBody request = Some raw ->
  safeParse (normalizePayload raw) = Some payload ->
  In old (rows db) ->
  Entry.email old = JsString.toLowerCase (email payload) ->
  postWaitlist env now request db = Responded response db' ->
  status response = 201 ->
  let cfSnapshot := getCfSnapshot request in
  rowsOfEmail db' (JsString.toLowerCase (email payload))
  = [ {| Entry.id := Entry.id old;
         Entry.email := JsString.toLowerCase (email payload);
         Entry.use_case := useCase payload;
         Entry.ip_address := Some (getConnectingIp (headers request));
         Entry.user_agent := headers request !! "user-agent";
         Entry.accept_language := headers request !! "accept-language";
         Entry.cf_country := country cfSnapshot;
         Entry.cf_region := region cfSnapshot;
         Entry.cf_region_code := regionCode cfSnapshot;
         Entry.cf_city := city cfSnapshot;
         Entry.cf_postal_code := postalCode cfSnapshot;
         Entry.cf_continent := continent cfSnapshot;
         Entry.cf_timezone := timezone cfSnapshot;
         Entry.cf_colo := colo cfSnapshot;
         Entry.cf_asn := asn cfSnapshot;
         Entry.cf_as_organization := asOrganization cfSnapshot;
         Entry.cf_latitude := latitude cfSnapshot;
         Entry.cf_longitude := longitude cfSnapshot;
         Entry.cf_bot_score := botScore cfSnapshot;
         Entry.cf_tls_version := tlsVersion cfSnapshot;
         Entry.cf_http_protocol := httpProtocol cfSnapshot;
         Entry.created_at := Entry.created_at old;
         Entry.updated_at := JsDate.toISOString now |} ]
  /\ List.length (rows db') = List.length (rows db)
  /\ uniqueEmails db'
  /\ (forall row, In row (rows db) -> Entry.email row <> Entry.email old -> In row (rows db')).
Proof.
  intros Hu Hraw Hparse Hin He Hrun Hstatus cfSnapshot.
  destruct (postWaitlist_accepted _ _ _ _ _ _ Hrun Hstatus)
    as (raw' & payload' & Hraw' & Hparse' & _ & ->).
  rewrite Hraw in Hraw'. injection Hraw' as <-.
  rewrite Hparse in Hparse'. injection Hparse' as <-.
  set (excluded := boundRow db request payload _ _).
  assert (Entry.email old = Entry.email excluded) as He' by exact He.
  destruct (upsert_conflict db excluded old Hu Hin He') as (Hrows & Hlen & _ & Hu' & Hrest).
  change (JsString.toLowerCase (email payload)) with (Entry.email excluded) at 1.
  rewrite Hrows. repeat split; try assumption.
  - unfold doUpdate. rewrite He. reflexivity.
  - intros row Hrow Hne. apply Hrest; [exact Hrow | congruence].
Qed.

(** *** What the rate limiter counts *)

Lemma length_filter_map_ext {A} (g : A -> bool) (f : A -> A) (l : list A) :
  (forall x, In x l -> g (f x) = g x) ->
  List.length (List.filter g (map f l)) = List.length (List.filter g l).
Proof.
  induction l as [|x l IH]; intros Hg; [reflexivity|].
  simpl. rewrite (Hg x (or_introl eq_refl)).
  destruct (g x); simpl; rewrite IH; auto; intros y Hy; apply Hg; now right.
Qed.

(** The update branch moves a row into the bucket of the new address and
    keeps its day: the count of an address does not change when the row
    was already in its bucket, or was created on another day. *)
Lemma upsert_conflict_count db excluded old ipAddress now :
  uniqueEmails db -> In old (rows db) -> Entry.email old = Entry.email excluded ->
  Entry.ip_address excluded = Some ipAddress ->
  Entry.ip_address old = Some ipAddress \/ createdOnUtcDayOf now old = false ->
  rowsOfIpOnUtcDayOf (upsert db excluded) ipAddress now
  = rowsOfIpOnUtcDayOf db ipAddress now.
Proof.
  intros Hu Hin He Hip Hold. unfold upsert.
  assert (existsb (conflicts excluded) (rows db) = true) as ->.
  { apply List.existsb_exists. exists old. split; [exact Hin|].
    unfold conflicts. rewrite He. apply String.eqb_refl. }
  unfold rowsOfIpOnUtcDayOf. cbn [rows]. f_equal.
  apply length_filter_map_ext. intros row Hrow.
  unfold conflicts. destruct (String.eqb_spec (Entry.email row) (Entry.email excluded)) as [E|_];
    [|reflexivity].
  assert (row = old) as ->.
  { pose proof (filter_unique_email (rows db) old Hu Hin) as F.
    assert (In row (List.filter (fun r => String.eqb (Entry.email r) (Entry.email old))
                      (rows db))) as Hf.
    { apply List.filter_In. split; [exact Hrow|]. rewrite E, He. apply String.eqb_refl. }
    rewrite F in Hf. destruct Hf as [<-|[]]. reflexivity. }
  unfold createdOnUtcDayOf. cbn [doUpdate Entry.ip_address Entry.created_at].
  fold (createdOnUtcDayOf now old). rewrite Hip.
  destruct Hold as [-> | ->]; [reflexivity|]. now rewrite !andb_false_r.
Qed.

(** An accepted resubmission of an email stored from the same address on
    the same UTC day leaves that address's count where it was. *)
Lemma resubmission_not_counted env now request db raw payload old response db' :
  uniqueEmails db ->
  parseRequestBody request = Some raw ->
  safeParse (normalizePayload raw) = Some payload ->
  In old (rows db) ->
  Entry.email old = JsString.toLowerCase (email payload) ->
  Entry.ip_address old = Some (getConnectingIp (headers request)) ->
  postWaitlist env now request db = Responded response db' ->
  status response = 201 ->
  rowsOfIpOnUtcDayOf db' (getConnectingIp (headers request)) now
  = rowsOfIpOnUtcDayOf db (getConnectingIp (headers request)) now.
Proof.
  intros Hu Hraw Hparse Hin He Hip Hrun Hstatus.
  destruct (postWaitlist_accepted _ _ _ _ _ _ Hrun Hstatus)
    as (raw' & payload' & Hraw' & Hparse' & _ & ->).
  rewrite Hraw in Hraw'. injection Hraw' as <-.
  rewrite Hparse in Hparse'. injection Hparse' as <-.
  apply (upsert_conflict_count db _ old); auto.
Qed.

(** A first submission of an email adds one to the count of its address
    when it is written on the day of [now]. *)
Lemma upsert_fresh_count db excluded ipAddress now :
  ~ In (Entry.email excluded) (map Entry.email (rows db)) ->
  Entry.ip_address excluded = Some ipAddress ->
  createdOnUtcDayOf now excluded = true ->
  rowsOfIpOnUtcDayOf (upsert db excluded) ipAddress now
  = rowsOfIpOnUtcDayOf db ipAddress now + 1.
Proof.
  intros Hfresh Hip Hday. rewrite (upsert_fresh db excluded Hfresh).
  unfold rowsOfIpOnUtcDayOf. cbn [rows].
  rewrite List.filter_app, List.length_app. cbn [List.filter].
  rewrite Hip, Hday, bool_decide_eq_true_2 by reflexivity. simpl. lia.
Qed.

(** *** The client address *)

(** C8: the address is the connecting-IP header when it is there and not
    empty; else, when the forwarded-for header is there and not empty, its
    part before the first comma, trimmed; else the text [unknown]. *)
Theorem connecting_ip_precedence (headers : gmap string string) :
  let connecting := headers !! "cf-connecting-ip" in
  let forwarded := headers !! "x-forwarded-for" in
  (forall ip, connecting = Some ip -> ip <> "" -> getConnectingIp headers = ip)
  /\ (connecting = None \/ connecting = Some "" ->
      forall entries, forwarded = Some entries -> entries <> "" ->
      exists first rest,
        entries = first ++ rest
        /\ JsString.includes "," first = false
        /\ (rest = "" \/ exists rest', rest = String "," rest')
        /\ getConnectingIp headers = JsString.trim first)
  /\ (connecting = None \/ connecting = Some "" ->
      forwarded = None \/ forwarded = Some "" ->
      getConnectingIp headers = "unknown").
Proof.
  intros connecting forwarded. subst connecting forwarded. unfold getConnectingIp.
  split; [|split].
  - intros ip -> Hne. now apply JsStringFacts.length_pos_iff in Hne as ->.
  - intros Hc entries -> Hne.
    destruct (JsStringFacts.splitHead_spec "," entries) as (rest & E & N & R).
    exists (JsString.splitHead "," entries), rest.
    apply JsStringFacts.length_pos_iff in Hne as ->.
    repeat split; try assumption. now destruct Hc as [-> | ->].
  - intros Hc Hf. destruct Hc as [-> | ->], Hf as [-> | ->]; reflexivity.
Qed.

(** C10: a forwarded-for header that starts with a comma gives the empty
    address, which is not [unknown]; a row stored under it is counted for
    the empty address and never for [unknown]. *)
Theorem empty_ip_bucket :
  exists headers : gmap string string,
    headers !! "x-forwarded-for" = Some ",1.2.3.4"
    /\ getConnectingIp headers = ""
    /\ getConnectingIp headers <> "unknown"
    /\ forall (row : Entry.t number) now,
         Entry.ip_address row = Some (getConnectingIp headers) ->
         createdOnUtcDayOf now row = true ->
         rowsOfIpOnUtcDayOf {| rows := [row]; sequence := Entry.id row |} "" now = 1
         /\ rowsOfIpOnUtcDayOf {| rows := [row]; sequence := Entry.id row |} "unknown" now = 0.
Proof.
  exists {[ "x-forwarded-for" := ",1.2.3.4" ]}.
  assert (getConnectingIp {[ "x-forwarded-for" := ",1.2.3.4" ]} = "") as E by reflexivity.
  rewrite E. split; [reflexivity|]. split; [reflexivity|]. split; [discriminate|].
  intros row now Hip Hday. unfold rowsOfIpOnUtcDayOf. cbn [rows List.filter].
  rewrite Hip, Hday. split; reflexivity.
Qed.

(** *** The normalizer *)

Lemma toOptionalString_Some value x :
  toOptionalString value = Some x ->
  exists s, value = JString s /\ x = JsString.trim s.
Proof.
  destruct value as [| | | |s| |]; try discriminate. simpl.
  destruct (JsString.length (JsString.trim s) >? 0); [|discriminate].
  intros [= <-]. now exists s.
Qed.

Lemma toOptionalString_nullish (a b : JsValue number) :
  (forall s, a <> JString s) ->
  toOptionalString (a ?? b) = toOptionalString (firstPresent [a; b]).
Proof. destruct a, b; try reflexivity; intros Hs; now destruct (Hs s). Qed.








(** *** The configured ceiling *)

(** C9, as the code has it: the ceiling is the default 10 when the
    setting is absent or empty, when it does not start (after white space
    and one optional sign) with digits, and when the integer it starts
    with is below 1 or too large for a finite number; otherwise it is the
    integer the leading digits write, whatever follows them (exactly so
    below 2^53, rounded to the nearest double above). It is never below 1. *)
Theorem ceiling_from_leading_integer :
  parsePositiveInt None 10 = 10
  /\ parsePositiveInt (Some "") 10 = 10
  /\ (forall ws sign ds rest,
        JsString.all JsString.isWhiteSpace ws = true -> sign = "" \/ sign = "+" ->
        ds <> "" -> JsString.all JsString.isDigit ds = true ->
        JsString.headIs JsString.isDigit rest = false ->
        parsePositiveInt (Some (ws ++ sign ++ ds ++ rest)) 10
        = (if JsNumber.digitsValue ds <? 1 then 10
           else default 10 (JsNumber.roundToDouble (JsNumber.digitsValue ds)))
        /\ (1 <= JsNumber.digitsValue ds < 2 ^ 53 ->
            parsePositiveInt (Some (ws ++ sign ++ ds ++ rest)) 10
            = JsNumber.digitsValue ds))
  /\ (forall ws ds rest,
        JsString.all JsString.isWhiteSpace ws = true ->
        ds <> "" -> JsString.all JsString.isDigit ds = true ->
        JsString.headIs JsString.isDigit rest = false ->
        parsePositiveInt (Some (ws ++ "-" ++ ds ++ rest)) 10 = 10)
  /\ (forall ws sign rest,
        JsString.all JsString.isWhiteSpace ws = true -> sign = "" \/ sign = "+" \/ sign = "-" ->
        JsString.headIs JsString.isDigit rest = false ->
        (sign = "" -> JsString.headIs JsString.isWhiteSpace rest = false
                      /\ JsString.headIs JsNumber.isSign rest = false) ->
        parsePositiveInt (Some (ws ++ sign ++ rest)) 10 = 10)
  /\ (forall setting, 1 <= parsePositiveInt setting 10).
Proof.
  assert (forall v, parsePositiveInt (Some v) 10
                    = match JsNumber.parseInt v with
                      | JsNumber.Integer n => if n <? 1 then 10 else n
                      | _ => 10
                      end) as Hsome.
  { intros [|c r]; reflexivity. }
  split; [reflexivity|]. split; [reflexivity|]. repeat apply conj.
  - intros ws sign ds rest Hws Hsign Hne Hds Hrest.
    assert (0 <= JsNumber.digitsValue ds) as Hnn
      by (apply JsNumberFacts.digitsValueFrom_nonneg; [exact Hds | lia]).
    assert (parsePositiveInt (Some (ws ++ sign ++ ds ++ rest)) 10
            = (if JsNumber.digitsValue ds <? 1 then 10
               else default 10 (JsNumber.roundToDouble (JsNumber.digitsValue ds)))) as E.
    { rewrite Hsome, JsNumberFacts.parseInt_leading_digits by intuition.
      replace (String.eqb sign "-") with false by (now destruct Hsign as [-> | ->]).
      destruct (Z.ltb_spec (JsNumber.digitsValue ds) 1) as [Hz|Hpos].
      - assert (JsNumber.digitsValue ds = 0) as -> by lia. reflexivity.
      - destruct (JsNumber.roundToDouble (JsNumber.digitsValue ds)) as [d|] eqn:Er;
          [|reflexivity].
        pose proof (JsNumberFacts.roundToDouble_pos _ _ Hpos Er) as Hd.
        destruct (Z.ltb_spec d 1); [lia | reflexivity]. }
    split; [exact E|]. intros [H1 H53]. rewrite E.
    destruct (Z.ltb_spec (JsNumber.digitsValue ds) 1); [lia|].
    now rewrite JsNumberFacts.roundToDouble_small.
  - intros ws ds rest Hws Hne Hds Hrest.
    assert (0 <= JsNumber.digitsValue ds) as Hnn
      by (apply JsNumberFacts.digitsValueFrom_nonneg; [exact Hds | lia]).
    rewrite Hsome, JsNumberFacts.parseInt_leading_digits by intuition.
    cbn [String.eqb Ascii.eqb Bool.eqb andb].
    destruct (JsNumber.roundToDouble (JsNumber.digitsValue ds)) as [d|] eqn:Er;
      [|reflexivity].
    destruct (Z.ltb_spec (- d) 1) as [_|Hd]; [reflexivity|].
    exfalso. destruct (Z.ltb_spec (JsNumber.digitsValue ds) 1).
    + assert (JsNumber.digitsValue ds = 0) as E0 by lia. rewrite E0 in Er.
      injection Er as <-. lia.
    + pose proof (JsNumberFacts.roundToDouble_pos _ _ ltac:(eassumption) Er). lia.
  - intros ws sign rest Hws Hsign Hrest Hbare.
    now rewrite Hsome, JsNumberFacts.parseInt_no_digits.
  - intros [v|]; [|change (1 <= 10); lia]. rewrite Hsome.
    destruct (JsNumber.parseInt v) as [| |n]; try lia.
    destruct (Z.ltb_spec n 1); lia.
Qed.

(** *** What the handler leaves in the store *)

(** The handler's outcomes, branch by branch, whatever the clock. *)
Lemma postWaitlist_outcomes env now request db :
  postWaitlist env now request db = Threw
  \/ postWaitlist env now request db = Responded invalidPayload db
  \/ postWaitlist env now request db = Responded honeypotAccepted db
  \/ postWaitlist env now request db
     = Responded (rateLimited (secondsUntilNextUtcDay now)) db
  \/ exists raw payload,
       parseRequestBody request = Some raw
       /\ safeParse (normalizePayload raw) = Some payload
       /\ honeypot payload = false
       /\ postWaitlist env now request db
          = Responded accepted
              (upsert db (boundRow db request payload
                            (getConnectingIp (headers request))
                            (JsDate.toISOString now))).
Proof.
  unfold postWaitlist.
  destruct (parseRequestBody request) as [raw|]; [|now left].
  destruct (safeParse (normalizePayload raw)) as [payload|] eqn:Hparse;
    [|right; now left].
  destruct (honeypot payload) eqn:Hh; [right; right; now left|].
  destruct (startOfUtcDayIso now) as [dayStart|]; [|now left].
  destruct (endOfUtcDayIso now) as [dayEnd|]; [|now left].
  cbv zeta. destruct (countEntries db _ dayStart dayEnd >=? _).
  - right. right. right. now left.
  - do 4 right. now exists raw, payload.
Qed.

(** Only an answer 201 changes the table: with any other answer the
    store is the one the request found. *)
Theorem store_untouched_unless_accepted env now request db response db' :
  postWaitlist env now request db = Responded response db' ->
  status response <> 201 ->
  db' = db.
Proof.
  intros Hrun Hstatus.
  destruct (postWaitlist_outcomes env now request db)
    as [E|[E|[E|[E|(raw & payload & _ & _ & _ & E)]]]];
    rewrite E in Hrun; try discriminate Hrun; injection Hrun as <- <-;
    try reflexivity.
  now destruct Hstatus.
Qed.

(** The answers have one of four statuses; [ok] is true exactly for 200
    and 201, an [error] code comes exactly with the others, and the
    [Retry-After] header exactly with 429. *)
Theorem response_shape env now request db response db' :
  postWaitlist env now request db = Responded response db' ->
  In (status response) [200; 201; 400; 429]
  /\ (ok (body response) = true <-> status response = 200 \/ status response = 201)
  /\ (error (body response) = None <-> ok (body response) = true)
  /\ (status response = 429
      <-> exists text, responseHeaders response = [("Retry-After", text)])
  /\ (status response <> 429 -> responseHeaders response = []).
Proof.
  intros Hrun.
  destruct (postWaitlist_outcomes env now request db)
    as [E|[E|[E|[E|(raw & payload & _ & _ & _ & E)]]]];
    rewrite E in Hrun; try discriminate Hrun; injection Hrun as <- <-;
    cbn [status body ok error responseHeaders invalidPayload honeypotAccepted
         accepted rateLimited jsonResponse In].
  all: repeat match goal with
              | |- _ /\ _ => split
              | |- _ <-> _ => split; intros
              | |- _ -> _ => intros
              | H : _ \/ _ |- _ => destruct H
              | H : exists _, _ |- _ => destruct H
              end;
       try discriminate; try reflexivity; try (simpl; tauto); try lia; eauto.
Qed.

Lemma nextRowid_above db :
  sequence db < nextRowid db
  /\ forall row, In row (rows db) -> Entry.id row < nextRowid db.
Proof.
  unfold nextRowid. induction (rows db) as [|r l [IHs IHr]]; cbn [map fold_right].
  - split; [lia | intros row []].
  - split; [lia|]. intros row [<-|Hin]; [lia|]. specialize (IHr row Hin). lia.
Qed.

(** A first submission of an email, when accepted, adds one row at the
    end of the table and touches no other: the row has a rowid above
    every rowid the table holds or gave out, [created_at] and
    [updated_at] are both this submission's instant, and the columns are
    its values. *)
Theorem first_submission_appends env now request db raw payload response db' :
  parseRequestBody request = Some raw ->
  safeParse (normalizePayload raw) = Some payload ->
  ~ In (JsString.toLowerCase (email payload)) (map Entry.email (rows db)) ->
  postWaitlist env now request db = Responded response db' ->
  status response = 201 ->
  exists row,
    rows db' = (rows db ++ [row])%list
    /\ sequence db' = Entry.id row
    /\ sequence db < Entry.id row
    /\ (forall other, In other (rows db) -> Entry.id other < Entry.id row)
    /\ Entry.email row = JsString.toLowerCase (email payload)
    /\ Entry.use_case row = useCase payload
    /\ Entry.ip_address row = Some (getConnectingIp (headers request))
    /\ Entry.user_agent row = headers request !! "user-agent"
    /\ Entry.accept_language row = headers request !! "accept-language"
    /\ Entry.created_at row = JsDate.toISOString now
    /\ Entry.updated_at row = Entry.created_at row.
Proof.
  intros Hraw Hparse Hfresh Hrun Hstatus.
  destruct (postWaitlist_accepted _ _ _ _ _ _ Hrun Hstatus)
    as (raw' & payload' & Hraw' & Hparse' & _ & ->).
  rewrite Hraw in Hraw'. injection Hraw' as <-.
  rewrite Hparse in Hparse'. injection Hparse' as <-.
  rewrite upsert_fresh by exact Hfresh.
  destruct (nextRowid_above db) as [Hs Hr].
  eexists. cbn [rows sequence]. split; [reflexivity|].
  cbn [boundRow Entry.id Entry.email Entry.use_case Entry.ip_address Entry.user_agent
       Entry.accept_language Entry.created_at Entry.updated_at].
  repeat apply conj; try reflexivity; assumption.
Qed.

(** *** Invariants of the table *)

Lemma toLowerCase_length s :
  JsString.length (JsString.toLowerCase s) = JsString.length s.
Proof.
  unfold JsString.length. f_equal.
  induction s as [|c s IH]; [reflexivity|]. simpl. now rewrite IH.
Qed.

Lemma upsert_lowercase db excluded :
  JsString.toLowerCase (Entry.email excluded) = Entry.email excluded ->
  lowercaseEmails db -> lowercaseEmails (upsert db excluded).
Proof.
  unfold lowercaseEmails, upsert. intros He Hl.
  destruct (existsb (conflicts excluded) (rows db)); cbn [rows].
  - apply List.Forall_forall. intros row Hrow.
    apply List.in_map_iff in Hrow as (row0 & <- & Hin).
    rewrite List.Forall_forall in Hl. specialize (Hl row0 Hin).
    now destruct (conflicts excluded row0).
  - apply List.Forall_app. split; [exact Hl|]. now constructor.
Qed.

(** The emails of the table stay unique and lowercase through every
    request the handler answers. *)
Theorem emails_stay_unique_and_lowercase env now request db response db' :
  uniqueEmails db -> lowercaseEmails db ->
  postWaitlist env now request db = Responded response db' ->
  uniqueEmails db' /\ lowercaseEmails db'.
Proof.
  intros Hu Hl Hrun.
  destruct (postWaitlist_outcomes env now request db)
    as [E|[E|[E|[E|(raw & payload & _ & _ & _ & E)]]]];
    rewrite E in Hrun; try discriminate Hrun; injection Hrun as <- <-;
    try (split; assumption).
  split; [now apply upsert_unique|].
  apply upsert_lowercase; [|exact Hl]. apply JsStringFacts.toLowerCase_idem.
Qed.

Lemma upsert_rowids db excluded :
  Entry.id excluded = nextRowid db ->
  rowidsIssued db ->
  rowidsIssued (upsert db excluded) /\ sequence db <= sequence (upsert db excluded).
Proof.
  intros Hid [Hnd Hle]. destruct (nextRowid_above db) as [Hs Hr].
  unfold upsert, rowidsIssued.
  destruct (existsb (conflicts excluded) (rows db)); cbn [rows sequence].
  - assert (map Entry.id
              (map (fun row => if conflicts excluded row
                               then doUpdate row excluded else row) (rows db))
            = map Entry.id (rows db)) as Eids.
    { rewrite List.map_map. apply List.map_ext. intros row.
      now destruct (conflicts excluded row). }
    rewrite Eids. split; [|lia]. split; [exact Hnd|].
    apply List.Forall_forall. intros row Hrow.
    apply List.in_map_iff in Hrow as (row0 & <- & Hin).
    rewrite List.Forall_forall in Hle. specialize (Hle row0 Hin).
    now destruct (conflicts excluded row0).
  - rewrite Hid. split; [|lia]. split.
    + rewrite List.map_app. cbn [map]. apply List.NoDup_app.
      * exact Hnd.
      * apply List.NoDup_cons; [intros [] | constructor].
      * intros i Hi [<-|[]]. apply List.in_map_iff in Hi as (row & E & Hin).
        specialize (Hr row Hin). lia.
    + apply List.Forall_app. split.
      * apply List.Forall_forall. intros row Hin. specialize (Hr row Hin). lia.
      * constructor; [lia | constructor].
Qed.

(** Rowids are never reused: through every request the handler answers
    the rowids stay distinct and at most the last one given out, which
    never goes down. *)
Theorem rowids_never_reused env now request db response db' :
  rowidsIssued db ->
  postWaitlist env now request db = Responded response db' ->
  rowidsIssued db' /\ sequence db <= sequence db'.
Proof.
  intros Hi Hrun.
  destruct (postWaitlist_outcomes env now request db)
    as [E|[E|[E|[E|(raw & payload & _ & _ & _ & E)]]]];
    rewrite E in Hrun; try discriminate Hrun; injection Hrun as <- <-;
    try (split; [assumption | lia]).
  now apply upsert_rowids.
Qed.

(** *** Submitting again *)






(** *** The rate limiter *)

Lemma filter_filter_implied {A} (f g : A -> bool) (l : list A) :
  (forall x, f x = true -> g x = true) ->
  List.filter f (List.filter g l) = List.filter f l.
Proof.
  intros Hfg. induction l as [|x l IH]; [reflexivity|].
  simpl. destruct (g x) eqn:G; simpl.
  - now rewrite IH.
  - destruct (f x) eqn:F; [|exact IH]. rewrite (Hfg x F) in G. discriminate G.
Qed.

Lemma countEntries_rowsOfIp db ipAddress dayStart dayEnd :
  countEntries db ipAddress dayStart dayEnd
  = Z.of_nat (List.length (List.filter (inWindow ipAddress dayStart dayEnd)
                             (rowsOfIp db ipAddress))).
Proof.
  unfold countEntries, rowsOfIp. rewrite filter_filter_implied; [reflexivity|].
  intros row H. unfold inWindow in H.
  now apply andb_true_iff in H as [H _]; apply andb_true_iff in H as [H _].
Qed.

(** The answer depends on the table only through the rows of the
    requester's address: two tables that hold the same rows for it get
    the same answer, whatever other addresses have stored. *)
Theorem other_addresses_do_not_matter env now request db1 db2 :
  rowsOfIp db1 (getConnectingIp (headers request))
  = rowsOfIp db2 (getConnectingIp (headers request)) ->
  responseOf (postWaitlist env now request db1)
  = responseOf (postWaitlist env now request db2).
Proof.
  intros Hrows. unfold postWaitlist.
  destruct (parseRequestBody request) as [raw|]; [|reflexivity].
  destruct (safeParse (normalizePayload raw)) as [payload|]; [|reflexivity].
  destruct (honeypot payload); [reflexivity|].
  destruct (startOfUtcDayIso now) as [dayStart|]; [|reflexivity].
  destruct (endOfUtcDayIso now) as [dayEnd|]; [|reflexivity].
  cbv zeta. rewrite !countEntries_rowsOfIp, Hrows.
  now destruct (_ >=? _).
Qed.

Lemma parsePositiveInt_pos setting : 1 <= parsePositiveInt setting 10.
Proof.
  unfold parsePositiveInt. destruct setting as [[|c r]|]; try lia.
  destruct (JsNumber.parseInt (String c r)) as [| |n]; try lia.
  destruct (Z.ltb_spec n 1); lia.
Qed.

Lemma rowsOfIpOnUtcDayOf_none db ipAddress now :
  (forall row, In row (rows db) -> createdOnUtcDayOf now row = false) ->
  rowsOfIpOnUtcDayOf db ipAddress now = 0.
Proof.
  intros Hnone. unfold rowsOfIpOnUtcDayOf.
  rewrite filter_none; [reflexivity|].
  intros row Hrow. rewrite (Hnone row Hrow). apply andb_false_r.
Qed.

(** No row stamped before the day of [now] began is in its window. *)
Lemma no_row_of_the_day db ipAddress now :
  JsDate.fourDigitYearTime now ->
  Forall (stampedBeforeDayOf now) (rows db) ->
  rowsOfIpOnUtcDayOf db ipAddress now = 0.
Proof.
  intros Hnow Hrows. apply rowsOfIpOnUtcDayOf_none. intros row Hrow.
  rewrite List.Forall_forall in Hrows.
  destruct (Hrows row Hrow) as (t & Ht & Hstamp & Hbefore).
  destruct (createdOnUtcDayOf now row) eqn:C; [|reflexivity].
  apply (createdOnUtcDayOf_stamped now t row Hnow Ht Hstamp) in C. lia.
Qed.

(** An address without a row of the day is below every ceiling. *)
Lemma accepted_on_empty_bucket env now request db raw payload :
  plausibleClock now ->
  parseRequestBody request = Some raw ->
  safeParse (normalizePayload raw) = Some payload ->
  honeypot payload = false ->
  rowsOfIpOnUtcDayOf db (getConnectingIp (headers request)) now = 0 ->
  exists db', postWaitlist env now request db = Responded accepted db'.
Proof.
  intros Hclock Hraw Hparse Hhoney Hzero.
  rewrite (postWaitlist_plausible env now request db Hclock), Hraw, Hparse, Hhoney.
  cbv zeta. rewrite Hzero.
  pose proof (parsePositiveInt_pos (WAITLIST_RATE_LIMIT_PER_DAY env)) as Hpos.
  destruct (Z.leb_spec (parsePositiveInt (WAITLIST_RATE_LIMIT_PER_DAY env) 10) 0);
    [lia | eauto].
Qed.

(** The count starts over at UTC midnight: when every row of the table
    was stamped before the day of [now] began, a request that clears
    validation and the honeypot check is accepted, however many rows the
    address holds and whatever the ceiling is. *)
Theorem count_resets_at_midnight env now request db raw payload :
  plausibleClock now -> JsDate.fourDigitYearTime now ->
  Forall (stampedBeforeDayOf now) (rows db) ->
  parseRequestBody request = Some raw ->
  safeParse (normalizePayload raw) = Some payload ->
  honeypot payload = false ->
  rowsOfIpOnUtcDayOf db (getConnectingIp (headers request)) now = 0
  /\ exists db', postWaitlist env now request db = Responded accepted db'.
Proof.
  intros Hclock Hnow Hrows Hraw Hparse Hhoney.
  pose proof (no_row_of_the_day db (getConnectingIp (headers request)) now Hnow Hrows)
    as Hzero.
  split; [exact Hzero|].
  now apply (accepted_on_empty_bucket env now request db raw payload).
Qed.

(** An accepted first submission of an email is counted once for its
    address on the day it is made. *)
Theorem first_submission_counts_once env now request db raw payload response db' :
  JsDate.fourDigitYearTime now ->
  parseRequestBody request = Some raw ->
  safeParse (normalizePayload raw) = Some payload ->
  ~ In (JsString.toLowerCase (email payload)) (map Entry.email (rows db)) ->
  postWaitlist env now request db = Responded response db' ->
  status response = 201 ->
  rowsOfIpOnUtcDayOf db' (getConnectingIp (headers request)) now
  = rowsOfIpOnUtcDayOf db (getConnectingIp (headers request)) now + 1.
Proof.
  intros Hnow Hraw Hparse Hfresh Hrun Hstatus.
  destruct (postWaitlist_accepted _ _ _ _ _ _ Hrun Hstatus)
    as (raw' & payload' & Hraw' & Hparse' & _ & ->).
  rewrite Hraw in Hraw'. injection Hraw' as <-.
  rewrite Hparse in Hparse'. injection Hparse' as <-.
  apply upsert_fresh_count; [exact Hfresh | reflexivity|].
  apply (createdOnUtcDayOf_stamped now now); [exact Hnow | exact Hnow | reflexivity|].
  apply WindowFacts.utcDay_bounds.
Qed.





(** Waiting the seconds of [Retry-After] is enough and not a second too
    much: with a table whose rows were stamped up to [now], the request
    that was limited is accepted that many seconds later, when the next
    UTC day has begun; one second earlier it is still the day of [now]. *)
Theorem retry_after_wait_is_enough env now request db raw payload :
  plausibleClock now ->
  Forall (stampedBy now) (rows db) ->
  parseRequestBody request = Some raw ->
  safeParse (normalizePayload raw) = Some payload ->
  honeypot payload = false ->
  exists seconds,
    secondsUntilNextUtcDay now = Some seconds
    /\ JsDate.Day (now + 1000 * (seconds - 1)) = JsDate.Day now
    /\ JsDate.Day (now + 1000 * seconds) = JsDate.Day now + 1
    /\ (plausibleClock (now + 1000 * seconds) ->
        JsDate.fourDigitYearTime (now + 1000 * seconds) ->
        exists db',
          postWaitlist env (now + 1000 * seconds) request db = Responded accepted db').
Proof.
  intros Hclock Hrows Hraw Hparse Hhoney.
  rewrite (secondsUntilNextUtcDay_plausible now Hclock).
  eexists. split; [reflexivity|].
  pose proof (ceilDiv1000_nextUtcMidnight now) as R.
  rewrite Z.max_r by lia.
  set (seconds := JsDate.ceilDiv1000 (nextUtcMidnight now - now)) in *.
  assert (JsDate.Day (now + 1000 * (seconds - 1)) = JsDate.Day now
          /\ JsDate.Day (now + 1000 * seconds) = JsDate.Day now + 1) as [Hless Hday].
  { subst seconds.
    unfold JsDate.ceilDiv1000, nextUtcMidnight, utcDayStart, JsDate.Day, JsDate.msPerDay in *.
    split; Z.div_mod_to_equations; lia. }
  split; [exact Hless|]. split; [exact Hday|].
  intros Hlater Hfour.
  apply (accepted_on_empty_bucket env _ request db raw payload Hlater);
    [assumption..|].
  apply no_row_of_the_day; [exact Hfour|].
  eapply List.Forall_impl; [|exact Hrows].
  intros row (t & Ht & Hstamp & Hle). exists t. split; [exact Ht|]. split; [exact Hstamp|].
  unfold utcDayStart. rewrite Hday.
  unfold JsDate.Day, JsDate.msPerDay. Z.div_mod_to_equations. lia.
Qed.

(** *** Reading the body *)

Lemma normalizePayload_no_fields raw :
  (forall fields, raw <> JObject fields) \/ raw = JObject ∅ ->
  email (normalizePayload raw) = None.
Proof.
  intros [Hno| ->]; [|reflexivity].
  destruct raw as [| | | | | |fields]; try reflexivity. now destruct (Hno fields).
Qed.

(** A body the handler cannot read as an object of fields is answered
    400 and nothing is stored: a JSON content type with a body that does
    not parse or is not an object (an array, a number, a text, null), and
    a content type that names neither JSON nor a form. *)
Theorem unreadable_body_is_invalid env now request db :
  (JsString.includes "application/json" (contentTypeOf request) = true
   /\ (json request = None
       \/ exists v, json request = Some v /\ forall fields, v <> JObject fields))
  \/ (JsString.includes "application/json" (contentTypeOf request) = false
      /\ namesForm (contentTypeOf request) = false) ->
  postWaitlist env now request db = Responded invalidPayload db.
Proof.
  intros Hbody.
  assert (exists raw, parseRequestBody request = Some raw
                      /\ email (normalizePayload raw) = None) as (raw & Hraw & He).
  { unfold parseRequestBody. fold (contentTypeOf request).
    destruct Hbody as [[-> Hjson]|[-> Hform]].
    - destruct Hjson as [-> | (v & -> & Hv)].
      + eexists. split; [reflexivity|]. reflexivity.
      + eexists. split; [reflexivity|]. apply normalizePayload_no_fields.
        cbn [default from_option id].
        destruct (isRecord v); [left; exact Hv | right; reflexivity].
    - unfold namesForm in Hform. rewrite Hform.
      eexists. split; [reflexivity|]. reflexivity. }
  unfold postWaitlist. rewrite Hraw. unfold safeParse. now rewrite He.
Qed.

Lemma list_to_map_fields_fresh (fields : list (string * string)) key :
  ~ In key (map fst fields) ->
  (list_to_map (map (fun field => (fst field, JString (snd field))) fields)
     : gmap string (JsValue number)) !! key = None.
Proof.
  induction fields as [|[k s] fields IH]; intros Hfresh; [apply lookup_empty|].
  cbn [map list_to_map foldr fst snd curry]. cbn [map In fst] in Hfresh.
  rewrite lookup_insert_ne by tauto. apply IH. tauto.
Qed.

(** Decoding a form of text fields with distinct names builds the object
    that holds each field's text under its name. *)
Lemma formFields_as_object (fields : list (string * string))
    (output : gmap string (JsValue number)) key :
  List.NoDup (map fst fields) ->
  foldl formField output (asFormEntries fields) !! key
  = match (list_to_map (map (fun field => (fst field, JString (snd field))) fields)
             : gmap string (JsValue number)) !! key with
    | Some v => Some v
    | None => output !! key
    end.
Proof.
  revert output. induction fields as [|[k s] fields IH]; intros output Hnd.
  - cbn [asFormEntries map foldl list_to_map foldr]. now rewrite lookup_empty.
  - cbn [map fst] in Hnd. apply List.NoDup_cons_iff in Hnd as [Hfresh Hnd].
    cbn [asFormEntries map foldl formField fst snd list_to_map foldr curry].
    fold (asFormEntries fields). rewrite (IH _ Hnd).
    destruct (decide (k = key)) as [->|Hne].
    + rewrite (list_to_map_fields_fresh fields key Hfresh), !lookup_insert_eq.
      reflexivity.
    + now rewrite !lookup_insert_ne by exact Hne.
Qed.

Lemma getConnectingIp_ext (h1 h2 : gmap string string) :
  h1 !! "cf-connecting-ip" = h2 !! "cf-connecting-ip" ->
  h1 !! "x-forwarded-for" = h2 !! "x-forwarded-for" ->
  getConnectingIp h1 = getConnectingIp h2.
Proof. intros E1 E2. unfold getConnectingIp. now rewrite E1, E2. Qed.

(** The handler reads a request through its decoded body, four headers
    and the edge metadata, and through nothing else. *)
Lemma postWaitlist_reads env now (request1 request2 : Request number) db :
  parseRequestBody request1 = parseRequestBody request2 ->
  (forall name, name <> "content-type" ->
     headers request1 !! name = headers request2 !! name) ->
  cf request1 = cf request2 ->
  postWaitlist env now request1 db = postWaitlist env now request2 db.
Proof.
  intros Hbody Hheaders Hcf. unfold postWaitlist. rewrite Hbody.
  destruct (parseRequestBody request2) as [raw|]; [|reflexivity].
  destruct (safeParse (normalizePayload raw)) as [payload|]; [|reflexivity].
  destruct (honeypot payload); [reflexivity|].
  destruct (startOfUtcDayIso now) as [dayStart|]; [|reflexivity].
  destruct (endOfUtcDayIso now) as [dayEnd|]; [|reflexivity].
  assert (getConnectingIp (headers request1) = getConnectingIp (headers request2)) as ->
    by (apply getConnectingIp_ext; apply Hheaders; discriminate).
  cbv zeta. destruct (_ >=? _); [reflexivity|].
  unfold boundRow, getCfSnapshot.
  now rewrite Hcf, !(Hheaders "user-agent"), !(Hheaders "accept-language") by discriminate.
Qed.

(** A form and a JSON body that carry the same text fields (of distinct
    names) are handled alike: same answer, same store. *)
Theorem form_and_json_agree env now (formRequest jsonRequest : Request number) db
    (fields : list (string * string)) :
  List.NoDup (map fst fields) ->
  JsString.includes "application/json" (contentTypeOf formRequest) = false ->
  namesForm (contentTypeOf formRequest) = true ->
  formData formRequest = Some (asFormEntries fields) ->
  JsString.includes "application/json" (contentTypeOf jsonRequest) = true ->
  json jsonRequest = Some (asJsonObject fields) ->
  (forall name, name <> "content-type" ->
     headers formRequest !! name = headers jsonRequest !! name) ->
  cf formRequest = cf jsonRequest ->
  postWaitlist env now formRequest db = postWaitlist env now jsonRequest db.
Proof.
  intros Hnd Hnj Hform Hdata Hjson Hobject Hheaders Hcf.
  apply postWaitlist_reads; [|exact Hheaders|exact Hcf].
  unfold parseRequestBody. fold (contentTypeOf formRequest) (contentTypeOf jsonRequest).
  unfold namesForm in Hform. rewrite Hnj, Hform, Hdata, Hjson, Hobject.
  cbn [default from_option id]. unfold asJsonObject. cbn [isRecord]. do 2 f_equal.
  apply (map_eq (M := gmap string)). intros key. rewrite (formFields_as_object fields ∅ key Hnd).
  destruct (_ !! key); [reflexivity | apply lookup_empty].
Qed.

(** The keys of the use case are interchangeable, and so are those of the
    honeypot: a body that holds a text under one of them and nothing
    under the others normalizes the same whichever key it is. *)
Theorem alias_keys_are_interchangeable (fields : gmap string (JsValue number)) s :
  (forall key1 key2,
     In key1 useCaseKeys -> In key2 useCaseKeys ->
     (forall key, In key useCaseKeys -> fields !! key = None) ->
     normalizePayload (JObject (<[key1 := JString s]> fields))
     = normalizePayload (JObject (<[key2 := JString s]> fields)))
  /\ (forall key1 key2,
        In key1 websiteKeys -> In key2 websiteKeys ->
        (forall key, In key websiteKeys -> fields !! key = None) ->
        normalizePayload (JObject (<[key1 := JString s]> fields))
        = normalizePayload (JObject (<[key2 := JString s]> fields))).
Proof.
  split.
  - intros key1 key2 H1 H2 Hnone.
    pose proof (Hnone "useCase" ltac:(simpl; tauto)) as N1.
    pose proof (Hnone "use_case" ltac:(simpl; tauto)) as N2.
    pose proof (Hnone "intent" ltac:(simpl; tauto)) as N3.
    pose proof (Hnone "description" ltac:(simpl; tauto)) as N4.
    unfold normalizePayload, prop. cbn [In useCaseKeys] in H1, H2.
    destruct H1 as [<-|[<-|[<-|[<-|[]]]]], H2 as [<-|[<-|[<-|[<-|[]]]]];
      rewrite ?lookup_insert_eq, ?lookup_insert_ne by discriminate;
      rewrite ?N1, ?N2, ?N3, ?N4; reflexivity.
  - intros key1 key2 H1 H2 Hnone.
    pose proof (Hnone "website" ltac:(simpl; tauto)) as N1.
    pose proof (Hnone "company" ltac:(simpl; tauto)) as N2.
    unfold normalizePayload, prop. cbn [In websiteKeys] in H1, H2.
    destruct H1 as [<-|[<-|[]]], H2 as [<-|[<-|[]]];
      rewrite ?lookup_insert_eq, ?lookup_insert_ne by discriminate;
      rewrite ?N1, ?N2; reflexivity.
Qed.

(** *** What validation lets through *)

(** A payload that passes validation is the normalized payload itself:
    the email is the trimmed text of the body's email, matches the
    pattern and has 1 to 320 characters, also once lowercased; a use
    case has 1 to 1200 characters and a website 1 to 200, both trimmed. *)
Theorem validated_payload_is_within_bounds raw payload :
  safeParse (normalizePayload raw) = Some payload ->
  (exists s, prop raw "email" = JString s /\ email payload = JsString.trim s)
  /\ email (normalizePayload raw) = Some (email payload)
  /\ useCase payload = useCase (normalizePayload raw)
  /\ website payload = website (normalizePayload raw)
  /\ isEmail (email payload) = true
  /\ 1 <= JsString.length (email payload) <= 320
  /\ JsString.length (JsString.toLowerCase (email payload)) <= 320
  /\ (forall u, useCase payload = Some u ->
        1 <= JsString.length u <= 1200 /\ JsString.trim u = u)
  /\ (forall w, website payload = Some w ->
        1 <= JsString.length w <= 200 /\ JsString.trim w = w).
Proof.
  intros Hparse. destruct (normalizePayload_trimmed raw) as (He & Hu & Hw).
  assert (forall s, s <> "" -> 1 <= JsString.length s) as Hpos.
  { intros s Hs. apply JsStringFacts.length_pos_iff in Hs.
    apply Z.gtb_lt in Hs. lia. }
  unfold safeParse, emailMax, optionalTrimmedMax in Hparse.
  destruct (email (normalizePayload raw)) as [e|] eqn:Ee; [|discriminate Hparse].
  destruct (He e eq_refl) as [Te Ne]. rewrite Te in Hparse.
  destruct (isEmail e) eqn:Epat; [|discriminate Hparse].
  destruct (Z.leb_spec (JsString.length e) 320) as [Le|_]; [|discriminate Hparse].
  cbn [andb] in Hparse.
  assert (exists s, prop raw "email" = JString s /\ e = JsString.trim s) as Hsrc
    by (apply toOptionalString_Some; exact Ee).
  destruct (useCase (normalizePayload raw)) as [u|] eqn:Eu.
  - destruct (Hu u eq_refl) as [Tu Nu]. rewrite Tu in Hparse.
    destruct (Z.leb_spec (JsString.length u) 1200) as [Lu|_]; [|discriminate Hparse].
    destruct (website (normalizePayload raw)) as [w|] eqn:Ew.
    + destruct (Hw w eq_refl) as [Tw Nw]. rewrite Tw in Hparse.
      destruct (Z.leb_spec (JsString.length w) 200) as [Lw|_]; [|discriminate Hparse].
      injection Hparse as <-. cbn [email useCase website].
      rewrite toLowerCase_length.
      repeat apply conj; auto; try (intros x [= <-]; auto).
    + injection Hparse as <-. cbn [email useCase website].
      rewrite toLowerCase_length.
      repeat apply conj; auto; try (intros x [= <-]; auto); try discriminate.
  - destruct (website (normalizePayload raw)) as [w|] eqn:Ew.
    + destruct (Hw w eq_refl) as [Tw Nw]. rewrite Tw in Hparse.
      destruct (Z.leb_spec (JsString.length w) 200) as [Lw|_]; [|discriminate Hparse].
      injection Hparse as <-. cbn [email useCase website].
      rewrite toLowerCase_length.
      repeat apply conj; auto; try (intros x [= <-]; auto); try discriminate.
    + injection Hparse as <-. cbn [email useCase website].
      rewrite toLowerCase_length.
      repeat apply conj; auto; try discriminate.
Qed.


(** *** The client address *)

Lemma includes_unit_append c (a b : string) :
  JsString.includes (String c "") (a ++ b)
  = JsString.includes (String c "") a || JsString.includes (String c "") b.
Proof.
  induction a as [|d a IH].
  - rewrite IsoFacts.append_empty. reflexivity.
  - rewrite IsoFacts.append_cons. cbn [JsString.includes JsString.startsWith].
    rewrite IH, !andb_true_r. now rewrite orb_assoc.
Qed.

Lemma includes_unit_trim c s :
  JsString.includes (String c "") s = false ->
  JsString.includes (String c "") (JsString.trim s) = false.
Proof.
  destruct (JsStringFacts.trim_spec s) as (l & r & E & _). intros H.
  rewrite E, !includes_unit_append in H.
  now apply orb_false_iff in H as [_ [H _]%orb_false_iff].
Qed.

Lemma trim_fixed s :
  JsString.headIs JsString.isWhiteSpace s = false ->
  JsString.lastIs JsString.isWhiteSpace s = false ->
  JsString.trim s = s.
Proof.
  intros Hh Hl. unfold JsString.trim.
  assert (JsString.trimStart s = s) as ->
    by (destruct s as [|c s]; [reflexivity | cbn in *; now rewrite Hh]).
  clear Hh. induction s as [|c s IH]; [reflexivity|].
  cbn [JsString.trimEnd]. destruct s as [|d s].
  - cbn in *. now rewrite Hl.
  - rewrite IH by exact Hl. reflexivity.
Qed.

Lemma splitHead_append sep (first rest : string) :
  JsString.includes (String sep "") first = false ->
  JsString.splitHead sep (first ++ String sep rest) = first.
Proof.
  induction first as [|c first IH]; intros H.
  - rewrite IsoFacts.append_empty. cbn. now rewrite Ascii.eqb_refl.
  - rewrite IsoFacts.append_cons. cbn [JsString.includes JsString.startsWith] in H.
    rewrite andb_true_r in H. apply orb_false_iff in H as [Hc H].
    cbn [JsString.splitHead]. rewrite Ascii.eqb_sym, Hc. now rewrite IH.
Qed.

Lemma splitHead_whole sep (s : string) :
  JsString.includes (String sep "") s = false -> JsString.splitHead sep s = s.
Proof.
  induction s as [|c s IH]; intros H; [reflexivity|].
  cbn [JsString.includes JsString.startsWith] in H.
  rewrite andb_true_r in H. apply orb_false_iff in H as [Hc H].
  cbn [JsString.splitHead]. rewrite Ascii.eqb_sym, Hc. now rewrite IH.
Qed.

(** Without a connecting-IP header the address is a clean token: it
    holds no comma and no white space at either end, so trimming it
    again changes nothing. *)
Theorem forwarded_address_is_clean (headers : gmap string string) :
  headers !! "cf-connecting-ip" = None \/ headers !! "cf-connecting-ip" = Some "" ->
  JsString.includes "," (getConnectingIp headers) = false
  /\ JsString.headIs JsString.isWhiteSpace (getConnectingIp headers) = false
  /\ JsString.lastIs JsString.isWhiteSpace (getConnectingIp headers) = false
  /\ JsString.trim (getConnectingIp headers) = getConnectingIp headers.
Proof.
  intros Hcf.
  assert (JsString.includes "," (getConnectingIp headers) = false
          /\ JsString.headIs JsString.isWhiteSpace (getConnectingIp headers) = false
          /\ JsString.lastIs JsString.isWhiteSpace (getConnectingIp headers) = false)
    as (Hc & Hh & Hl).
  { unfold getConnectingIp. destruct Hcf as [-> | ->]; cbn [JsString.length String.length
      Z.of_nat Z.gtb Z.compare].
    all: destruct (headers !! "x-forwarded-for") as [forwardedFor|];
      [destruct (JsString.length forwardedFor >? 0)|]; try (vm_compute; tauto).
    all: destruct (JsStringFacts.splitHead_spec "," forwardedFor) as (rest & _ & Hno & _).
    all: destruct (JsStringFacts.trim_spec (JsString.splitHead "," forwardedFor))
      as (l & r & _ & _ & _ & Hh & Hl).
    all: split; [now apply includes_unit_trim | now split]. }
  split; [exact Hc|]. split; [exact Hh|]. split; [exact Hl|]. now apply trim_fixed.
Qed.

(** Proxies appended to the forwarded-for header, and white space around
    its first entry, do not change the address: only the first entry is
    read. *)
Theorem appended_proxies_do_not_matter (headers : gmap string string)
    (first rest : string) :
  headers !! "cf-connecting-ip" = None ->
  JsString.includes "," first = false ->
  first <> "" ->
  getConnectingIp (<["x-forwarded-for" := first ++ String "," rest]> headers)
  = getConnectingIp (<["x-forwarded-for" := first]> headers)
  /\ getConnectingIp (<["x-forwarded-for" := first]> headers) = JsString.trim first.
Proof.
  intros Hcf Hno Hne. unfold getConnectingIp.
  rewrite !lookup_insert_eq, !lookup_insert_ne by discriminate. rewrite Hcf.
  assert ((JsString.length first >? 0) = true) as ->
    by now apply JsStringFacts.length_pos_iff.
  assert ((JsString.length (first ++ String "," rest) >? 0) = true) as ->.
  { apply JsStringFacts.length_pos_iff. destruct first; [now destruct Hne|].
    rewrite IsoFacts.append_cons. discriminate. }
  now rewrite splitHead_append, splitHead_whole.
Qed.

(** *** The edge metadata *)

Lemma readCfString_nonempty (input : option (JsValue number)) key :
  readCfString input key <> Some "".
Proof.
  unfold readCfString. destruct input as [input|]; [|discriminate].
  destruct (prop input key) as [| | | |s| |]; try discriminate.
  destruct s; [cbn; discriminate|].
  destruct (_ >? _); discriminate.
Qed.

Lemma readCfFloat_finite (input : option (JsValue number)) key x :
  readCfFloat input key = Some x -> number_isFinite x = true.
Proof.
  unfold readCfFloat. destruct input as [input|]; [|discriminate].
  destruct (prop input key) as [| | |n|s| |]; try discriminate.
  - destruct (number_isFinite n) eqn:F; [|discriminate]. now intros [= <-].
  - destruct (_ >? _); [|discriminate]. cbv zeta.
    destruct (number_isFinite (number_ofString s)) eqn:F; [|discriminate].
    now intros [= <-].
Qed.

Lemma readCfInteger_trunc (input : option (JsValue number)) key x :
  readCfInteger input key = Some x ->
  exists y, number_isFinite y = true /\ x = number_trunc y.
Proof.
  unfold readCfInteger. destruct (readCfFloat input key) as [y|] eqn:E; [|discriminate].
  intros [= <-]. exists y. split; [|reflexivity]. eapply readCfFloat_finite, E.
Qed.

(** What the snapshot of the edge metadata can hold: nothing at all for
    a request without metadata; never an empty text; for the coordinates
    only finite numbers; for the network number and the bot score only
    the integer part of a finite number. *)
Theorem cf_snapshot_is_clean request :
  (cf request = None -> getCfSnapshot request = emptyCfSnapshot)
  /\ Forall (fun text => text <> Some "") (snapshotTexts (getCfSnapshot request))
  /\ (forall x, latitude (getCfSnapshot request) = Some x
                \/ longitude (getCfSnapshot request) = Some x ->
                number_isFinite x = true)
  /\ (forall x, asn (getCfSnapshot request) = Some x
                \/ botScore (getCfSnapshot request) = Some x ->
                exists y, number_isFinite y = true /\ x = number_trunc y).
Proof.
  split; [|split; [|split]].
  - intros E. unfold getCfSnapshot. rewrite E. reflexivity.
  - unfold snapshotTexts, getCfSnapshot.
    cbn [country region regionCode city postalCode continent timezone colo
         asOrganization tlsVersion httpProtocol].
    repeat (apply Forall_cons; split; [apply readCfString_nonempty|]).
    apply Forall_nil_2.
  - intros x [E|E]; eapply readCfFloat_finite, E.
  - intros x [E|E]; eapply readCfInteger_trunc, E.
Qed.

(** *** Timestamps as text *)

Lemma DayFromYear_mono a b : a <= b -> JsDate.DayFromYear a <= JsDate.DayFromYear b.
Proof. unfold JsDate.DayFromYear. intros H. Z.div_mod_to_equations. lia. Qed.

Lemma MonthFromDayWithinYear_mono leap d e :
  d <= e -> JsDate.MonthFromDayWithinYear leap d <= JsDate.MonthFromDayWithinYear leap e.
Proof.
  intros H. unfold JsDate.MonthFromDayWithinYear.
  destruct leap; cbn [JsDate.monthStart];
    repeat match goal with
           | |- context [if ?a <? ?b then _ else _] => destruct (Z.ltb_spec a b)
           end; lia.
Qed.

Ltac compared :=
  try symmetry;
  first [apply Z.compare_eq_iff | apply Z.compare_lt_iff | apply Z.compare_gt_iff
        | symmetry;
          first [apply Z.compare_eq_iff | apply Z.compare_lt_iff | apply Z.compare_gt_iff]].

(** The date parts of two timestamps compare as their days. *)
Lemma isoDate_compare_Day t u :
  0 <= JsDate.YearFromTime t <= 9999 -> 0 <= JsDate.YearFromTime u <= 9999 ->
  String.compare (JsDate.isoDate t) (JsDate.isoDate u) = (JsDate.Day t ?= JsDate.Day u).
Proof.
  intros Yt Yu. rewrite IsoFacts.isoDate_compare by assumption.
  pose proof (JsDateFacts.YearFromDay_spec (JsDate.Day t)) as St.
  pose proof (JsDateFacts.YearFromDay_spec (JsDate.Day u)) as Su.
  fold (JsDate.YearFromTime t) in St. fold (JsDate.YearFromTime u) in Su.
  symmetry.
  destruct (Z.compare_spec (JsDate.YearFromTime t) (JsDate.YearFromTime u)) as [Ey|Hy|Hy].
  - unfold JsDate.DateFromTime, JsDate.MonthFromTime, JsDate.InLeapYear,
      JsDate.DayWithinYear. rewrite Ey.
    set (leap := JsDate.isLeapYear (JsDate.YearFromTime u)).
    set (base := JsDate.DayFromYear (JsDate.YearFromTime u)).
    pose proof (MonthFromDayWithinYear_mono leap (JsDate.Day t - base) (JsDate.Day u - base)).
    pose proof (MonthFromDayWithinYear_mono leap (JsDate.Day u - base) (JsDate.Day t - base)).
    destruct (Z.compare_spec (JsDate.MonthFromDayWithinYear leap (JsDate.Day t - base))
                (JsDate.MonthFromDayWithinYear leap (JsDate.Day u - base))) as [Em|Hm|Hm].
    + rewrite Em.
      destruct (Z.compare_spec (JsDate.Day t) (JsDate.Day u)); compared; lia.
    + compared. lia.
    + compared. lia.
  - compared.
    pose proof (DayFromYear_mono (JsDate.YearFromTime t + 1) (JsDate.YearFromTime u)). lia.
  - compared.
    pose proof (DayFromYear_mono (JsDate.YearFromTime u + 1) (JsDate.YearFromTime t)). lia.
Qed.

(** In the years 0 to 9999 the timestamps the worker writes compare as
    text the way their instants compare in time: the text window of the
    count and an index on [created_at] follow the clock, and two
    instants never share a timestamp. *)
Theorem timestamps_order_as_instants t u :
  JsDate.fourDigitYearTime t -> JsDate.fourDigitYearTime u ->
  String.compare (JsDate.toISOString t) (JsDate.toISOString u) = (t ?= u)
  /\ (JsDate.toISOString t = JsDate.toISOString u -> t = u).
Proof.
  intros Ht Hu.
  pose proof (WindowFacts.fourDigitYear t Ht) as Yt.
  pose proof (WindowFacts.fourDigitYear u Hu) as Yu.
  assert (String.compare (JsDate.toISOString t) (JsDate.toISOString u) = (t ?= u)) as C.
  { rewrite !IsoFacts.toISOString_split by assumption.
    rewrite IsoFacts.compare_append by now rewrite !IsoFacts.isoDate_length.
    rewrite isoDate_compare_Day, IsoFacts.isoTime_compare by assumption.
    unfold JsDate.Day, JsDate.TimeWithinDay, JsDate.msPerDay. symmetry.
    destruct (Z.compare_spec (t / 86400000) (u / 86400000)) as [E|L|L].
    - destruct (Z.compare_spec (t mod 86400000) (u mod 86400000)); compared;
        Z.div_mod_to_equations; lia.
    - compared. Z.div_mod_to_equations. lia.
    - compared. Z.div_mod_to_equations. lia. }
  split; [exact C|].
  intros E. rewrite E, IsoFacts.compare_refl in C. symmetry in C.
  now apply Z.compare_eq_iff.
Qed.

Lemma length_filter_map_conflict g excluded (l : list (Entry.t number)) old :
  List.NoDup (map Entry.email l) -> In old l -> Entry.email old = Entry.email excluded ->
  (List.length (List.filter g
     (map (fun row => if conflicts excluded row then doUpdate row excluded else row) l))
   + (if g old then 1 else 0)
   = List.length (List.filter g l) + (if g (doUpdate old excluded) then 1 else 0))%nat.
Proof.
  induction l as [|x l IH]; intros Hnd Hin He; [destruct Hin|].
  simpl in Hnd. apply List.NoDup_cons_iff in Hnd as [Hfresh Hnd].
  cbn [map]. destruct Hin as [->|Hin].
  - assert (conflicts excluded old = true) as ->
      by (unfold conflicts; rewrite He; apply String.eqb_refl).
    assert (map (fun row => if conflicts excluded row then doUpdate row excluded else row) l
            = l) as ->.
    { rewrite <- (List.map_id l) at 2. apply List.map_ext_in. intros y Hy.
      destruct (conflicts excluded y) eqn:Hcy; [|reflexivity].
      exfalso. apply Hfresh. unfold conflicts in Hcy.
      apply String.eqb_eq in Hcy. rewrite He, <- Hcy. now apply List.in_map. }
    simpl. destruct (g (doUpdate old excluded)), (g old); simpl; lia.
  - assert (conflicts excluded x = false) as ->.
    { unfold conflicts. apply String.eqb_neq. intros E. apply Hfresh.
      rewrite E, <- He. now apply List.in_map. }
    specialize (IH Hnd Hin He). simpl. destruct (g x); simpl; lia.
Qed.

(** A resubmission from another address moves the row to that address
    and keeps its day: when the row was created on the day of [now], the
    address that stored it has one row less to its count and the address
    that resubmits has one more. *)
Theorem resubmission_moves_the_row env now request db raw payload old oldIp
    response db' :
  uniqueEmails db ->
  parseRequestBody request = Some raw ->
  safeParse (normalizePayload raw) = Some payload ->
  In old (rows db) ->
  Entry.email old = JsString.toLowerCase (email payload) ->
  Entry.ip_address old = Some oldIp ->
  oldIp <> getConnectingIp (headers request) ->
  createdOnUtcDayOf now old = true ->
  postWaitlist env now request db = Responded response db' ->
  status response = 201 ->
  rowsOfIpOnUtcDayOf db' oldIp now = rowsOfIpOnUtcDayOf db oldIp now - 1
  /\ rowsOfIpOnUtcDayOf db' (getConnectingIp (headers request)) now
     = rowsOfIpOnUtcDayOf db (getConnectingIp (headers request)) now + 1.
Proof.
  intros Hu Hraw Hparse Hin He Hip Hne Hday Hrun Hstatus.
  destruct (postWaitlist_accepted _ _ _ _ _ _ Hrun Hstatus)
    as (raw' & payload' & Hraw' & Hparse' & _ & ->).
  rewrite Hraw in Hraw'. injection Hraw' as <-.
  rewrite Hparse in Hparse'. injection Hparse' as <-.
  set (ipAddress := getConnectingIp (headers request)) in *.
  set (excluded := boundRow db request payload ipAddress (JsDate.toISOString now)).
  assert (Entry.email old = Entry.email excluded) as He' by exact He.
  unfold upsert.
  assert (existsb (conflicts excluded) (rows db) = true) as ->.
  { apply List.existsb_exists. exists old. split; [exact Hin|].
    unfold conflicts. rewrite He'. apply String.eqb_refl. }
  unfold rowsOfIpOnUtcDayOf. cbn [rows].
  pose proof (length_filter_map_conflict
                (fun row => bool_decide (Entry.ip_address row = Some oldIp)
                            && createdOnUtcDayOf now row) excluded (rows db) old Hu Hin He')
    as Hold.
  pose proof (length_filter_map_conflict
                (fun row => bool_decide (Entry.ip_address row = Some ipAddress)
                            && createdOnUtcDayOf now row) excluded (rows db) old Hu Hin He')
    as Hnew.
  cbv beta in Hold, Hnew.
  assert (createdOnUtcDayOf now (doUpdate old excluded) = true) as Hday' by exact Hday.
  rewrite Hday', Hday, !andb_true_r in Hold, Hnew.
  cbn [doUpdate Entry.ip_address] in Hold, Hnew.
  change (Entry.ip_address excluded) with (Some ipAddress) in Hold, Hnew.
  rewrite Hip in Hold, Hnew.
  rewrite (bool_decide_eq_true_2 (Some oldIp = Some oldIp)) in Hold by reflexivity.
  rewrite (bool_decide_eq_false_2 (Some ipAddress = Some oldIp)) in Hold by congruence.
  rewrite (bool_decide_eq_false_2 (Some oldIp = Some ipAddress)) in Hnew by congruence.
  rewrite (bool_decide_eq_true_2 (Some ipAddress = Some ipAddress)) in Hnew by reflexivity.
  lia.
Qed.

(** *** When the handler throws *)


(** *** White space around the fields *)

Lemma toOptionalString_trim s :
  toOptionalString (JString (JsString.trim s) : JsValue number)
  = toOptionalString (JString s : JsValue number).
Proof. cbn [toOptionalString]. now rewrite JsStringFacts.trim_idem. Qed.

(** White space around the text of a field is ignored: a body in which
    the text under some key is replaced by its trimmed form normalizes
    to the same payload. *)
Theorem surrounding_white_space_is_ignored (fields : gmap string (JsValue number))
    key s :
  fields !! key = Some (JString s) ->
  normalizePayload (JObject (<[key := JString (JsString.trim s)]> fields))
  = normalizePayload (JObject fields).
Proof.
  intros Hkey.
  assert (forall k, (exists x, <[key := JString (JsString.trim s)]> fields !! k
                               = Some (JString (JsString.trim x))
                               /\ fields !! k = Some (JString x))
                    \/ <[key := JString (JsString.trim s)]> fields !! k = fields !! k)
    as Hlook.
  { intros k. destruct (decide (key = k)) as [<-|Hne].
    - left. exists s. now rewrite lookup_insert_eq.
    - right. now apply lookup_insert_ne. }
  unfold normalizePayload, prop. f_equal.
  - destruct (Hlook "email") as [(x & -> & ->)| ->]; [|reflexivity].
    apply toOptionalString_trim.
  - destruct (Hlook "useCase") as [(x1 & -> & ->)| ->];
      [cbn [default from_option id nullish]; apply toOptionalString_trim|].
    destruct (fields !! "useCase") as [[]|]; try reflexivity.
    all: destruct (Hlook "use_case") as [(x2 & -> & ->)| ->];
      [cbn [default from_option id nullish]; apply toOptionalString_trim|].
    all: destruct (fields !! "use_case") as [[]|]; try reflexivity.
    all: destruct (Hlook "intent") as [(x3 & -> & ->)| ->];
      [cbn [default from_option id nullish]; apply toOptionalString_trim|].
    all: destruct (fields !! "intent") as [[]|]; try reflexivity.
    all: destruct (Hlook "description") as [(x4 & -> & ->)| ->];
      [cbn [default from_option id nullish]; apply toOptionalString_trim|].
    all: reflexivity.
  - destruct (Hlook "website") as [(x1 & -> & ->)| ->];
      [cbn [default from_option id nullish]; apply toOptionalString_trim|].
    destruct (fields !! "website") as [[]|]; try reflexivity.
    all: destruct (Hlook "company") as [(x2 & -> & ->)| ->];
      [cbn [default from_option id nullish]; apply toOptionalString_trim|].
    all: reflexivity.
Qed.

End WorkerFacts.


(** ** The worker on sample requests *)

Example first_submission_stored :
  submitAll defaultBindings [(sampleClock, firstSubmission)] emptyStore
  = ([Some 201], oneRowStore).
Proof. vm_compute. reflexivity. Qed.

Example resubmission_stored :
  submitAll defaultBindings
    [(sampleClock, firstSubmission); (nextDayClock, resubmission)] emptyStore
  = ([Some 201; Some 201], resubmittedStore).
Proof. vm_compute. reflexivity. Qed.

(** With a ceiling of two, the third new email of a day is turned away,
    and let in the day after. *)
Example third_new_email_limited :
  fst (submitAll limitTwo
         [(sampleClock, firstSubmission); (sampleClock, secondSubmission);
          (sampleClock, thirdSubmission); (nextDayClock, thirdSubmission)] emptyStore)
  = [Some 201; Some 201; Some 429; Some 201].
Proof. vm_compute. reflexivity. Qed.

(** C4 on the code: with a ceiling of two, one address submits the same
    email four times on one day and is let in each time; the count the
    limiter compares with the ceiling stays at one. *)
Example resubmissions_escape_the_limit :
  submitAll limitTwo
    [(sampleClock, firstSubmission); (sampleClock, firstSubmission);
     (sampleClock, firstSubmission); (sampleClock, firstSubmission)] emptyStore
  = ([Some 201; Some 201; Some 201; Some 201], oneRowStore)
  /\ rowsOfIpOnUtcDayOf oneRowStore "1.2.3.4" sampleClock = 1.
Proof. vm_compute. split; reflexivity. Qed.

Lemma resubmission_updates_in_place_witness :
  rowsOfEmail resubmittedStore "user@example.com" = [updatedRow]
  /\ List.length (rows resubmittedStore) = List.length (rows oneRowStore).
Proof.
  destruct (resubmission_updates_in_place defaultBindings nextDayClock resubmission
              oneRowStore (bodyOf [("email", JString " User@Example.COM ");
                                   ("use_case", JString "Try it out")])
              resubmissionPayload storedRow accepted resubmittedStore)
    as (W1 & W2 & _).
  - repeat constructor. intros [].
  - vm_compute. reflexivity.
  - vm_compute. reflexivity.
  - now left.
  - vm_compute. reflexivity.
  - vm_compute. reflexivity.
  - reflexivity.
  - split; [|exact W2]. vm_compute in W1. vm_compute. exact W1.
Defined.

Lemma rate_limit_iff_witness :
  exists response db',
    postWaitlist limitTwo sampleClock thirdSubmission twoRowStore = Responded response db'
    /\ (status response = 429
        <-> parsePositiveInt (WAITLIST_RATE_LIMIT_PER_DAY limitTwo) 10
            <= rowsOfIpOnUtcDayOf twoRowStore
                 (getConnectingIp (headers thirdSubmission)) sampleClock).
Proof.
  destruct (rate_limit_iff limitTwo sampleClock thirdSubmission twoRowStore
              (bodyOf [("email", JString "third@example.com")]) thirdPayload)
    as (response & db' & Hrun & Hiff & _).
  - unfold plausibleClock.
    replace (JsDate.YearFromTime sampleClock) with 2026 by (vm_compute; reflexivity).
    unfold sampleClock, JsDate.maxTime. lia.
  - vm_compute. reflexivity.
  - vm_compute. reflexivity.
  - reflexivity.
  - exists response, db'. split; assumption.
Defined.

Lemma retry_after_seconds_witness :
  exists seconds,
    responseHeaders (rateLimited (Some 84000)) = [("Retry-After", JsNumber.toString seconds)]
    /\ seconds = Z.max 1 (JsDate.ceilDiv1000 (nextUtcMidnight sampleClock - sampleClock))
    /\ 1000 * (seconds - 1) < nextUtcMidnight sampleClock - sampleClock <= 1000 * seconds
    /\ 1 <= seconds <= 86400.
Proof.
  apply (retry_after_seconds limitTwo sampleClock thirdSubmission twoRowStore
           (rateLimited (Some 84000)) twoRowStore).
  - unfold plausibleClock.
    replace (JsDate.YearFromTime sampleClock) with 2026 by (vm_compute; reflexivity).
    unfold sampleClock, JsDate.maxTime. lia.
  - vm_compute. reflexivity.
  - reflexivity.
Defined.

Example retry_after_text :
  responseHeaders (rateLimited (Some 84000)) = [("Retry-After", "84000")].
Proof. vm_compute. reflexivity. Qed.

Lemma invalid_payload_rejected_witness :
  postWaitlist defaultBindings sampleClock
    (jsonRequest "1.2.3.4" [("email", JString "not-an-email")]) oneRowStore
  = Responded invalidPayload oneRowStore
  /\ status invalidPayload = 400
  /\ body invalidPayload
     = {| ok := false; error := Some "invalid_payload";
          message := "Please submit a valid email address." |}.
Proof.
  apply (invalid_payload_rejected defaultBindings sampleClock
           (jsonRequest "1.2.3.4" [("email", JString "not-an-email")]) oneRowStore
           (bodyOf [("email", JString "not-an-email")])).
  - vm_compute. reflexivity.
  - right. left. exists "not-an-email". split; vm_compute; reflexivity.
Defined.

(** The other ways to fail: no email, an empty one, one of 321
    characters, and fields that are too long. *)
Example invalid_payloads :
  let long n := String.concat "" (repeat "a" n) in
  map (fun fields => postWaitlist defaultBindings sampleClock
                       (jsonRequest "1.2.3.4" fields) oneRowStore)
    [ [];
      [("email", JString "")];
      [("email", JNumber (Some 5))];
      [("email", JString (long 310%nat ++ "@example.com"))];
      [("email", JString "a@b.co"); ("useCase", JString (long 1201%nat))];
      [("email", JString "a@b.co"); ("website", JString (long 201%nat))] ]
  = repeat (Responded invalidPayload oneRowStore) 6.
Proof. vm_compute. reflexivity. Qed.




(** C9 as stated fails: a setting that is not a positive-integer string
    but starts with digits sets the ceiling. *)
Lemma trailing_text_is_ignored :
  JsNumber.isPositiveIntegerString "12abc" = false
  /\ parsePositiveInt (Some "12abc") 10 = 12
  /\ JsNumber.isPositiveIntegerString "3.9" = false
  /\ parsePositiveInt (Some "3.9") 10 = 3.
Proof. vm_compute. repeat split; reflexivity. Qed.

Example ceilings :
  map (fun setting => parsePositiveInt setting 10)
    [None; Some ""; Some "25"; Some " 7"; Some "+5"; Some "0"; Some "-3"; Some "abc";
     Some "9007199254740993"]
  = [10; 10; 25; 7; 5; 10; 10; 10; 9007199254740992].
Proof. vm_compute. reflexivity. Qed.

Example connecting_ips :
  map getConnectingIp
    [ {[ "cf-connecting-ip" := "1.2.3.4"; "x-forwarded-for" := "9.9.9.9" ]};
      {[ "x-forwarded-for" := " 5.6.7.8 , 9.9.9.9" ]};
      {[ "cf-connecting-ip" := ""; "x-forwarded-for" := "5.6.7.8" ]};
      {[ "x-forwarded-for" := ",1.2.3.4" ]};
      ∅ ]
  = ["1.2.3.4"; "5.6.7.8"; "5.6.7.8"; ""; "unknown"].
Proof. vm_compute. reflexivity. Qed.

(** Where the day bounds stop working: a clock in the first century is
    moved to the twentieth, and the last valid instant has no end of day. *)
Example implausible_clocks :
  JsDate.toISOString (-60589296000000) = "0050-01-01T00:00:00.000Z"
  /\ startOfUtcDayIso (-60589296000000) = Some "1950-01-01T00:00:00.000Z"
  /\ JsDate.toISOString JsDate.maxTime = "+275760-09-13T00:00:00.000Z"
  /\ endOfUtcDayIso JsDate.maxTime = None.
Proof. vm_compute. repeat split; reflexivity. Qed.

(** The last millisecond of a day and the first of the next. *)
Example midnight :
  JsDate.toISOString (utcDayEnd sampleClock) = "2026-11-02T23:59:59.999Z"
  /\ JsDate.toISOString (nextUtcMidnight sampleClock) = "2026-11-03T00:00:00.000Z"
  /\ secondsUntilNextUtcDay (utcDayEnd sampleClock) = Some 1
  /\ secondsUntilNextUtcDay (utcDayStart sampleClock) = Some 86400.
Proof. vm_compute. repeat split; reflexivity. Qed.

(** ** The further properties on sample requests *)

Ltac sample_clock :=
  unfold plausibleClock;
  match goal with
  | |- context [JsDate.YearFromTime ?t] =>
      replace (JsDate.YearFromTime t) with 2026 by (vm_compute; reflexivity)
  end;
  unfold nextDayClock, sampleClock, JsDate.maxTime; lia.

Ltac sample_year :=
  unfold JsDate.fourDigitYearTime, JsDate.firstFourDigitYearTime,
    JsDate.lastFourDigitYearTime, nextDayClock, sampleClock; lia.

Lemma store_untouched_unless_accepted_witness :
  postWaitlist limitTwo sampleClock thirdSubmission twoRowStore
  = Responded (rateLimited (Some 84000)) twoRowStore
  /\ twoRowStore = twoRowStore.
Proof.
  assert (postWaitlist limitTwo sampleClock thirdSubmission twoRowStore
          = Responded (rateLimited (Some 84000)) twoRowStore) as Hrun
    by (vm_compute; reflexivity).
  split; [exact Hrun|].
  apply (store_untouched_unless_accepted limitTwo sampleClock thirdSubmission
           twoRowStore (rateLimited (Some 84000)) twoRowStore Hrun).
  vm_compute. discriminate.
Defined.

Lemma response_shape_witness :
  In (status (rateLimited (Some 84000))) [200; 201; 400; 429]
  /\ (status (rateLimited (Some 84000)) = 429
      <-> exists text,
            responseHeaders (rateLimited (Some 84000)) = [("Retry-After", text)]).
Proof.
  destruct (response_shape limitTwo sampleClock thirdSubmission twoRowStore
              (rateLimited (Some 84000)) twoRowStore) as (W1 & _ & _ & W2 & _).
  - vm_compute. reflexivity.
  - split; [exact W1 | exact W2].
Defined.

Lemma first_submission_appends_witness :
  exists row,
    rows twoRowStore = (rows oneRowStore ++ [row])%list
    /\ sequence twoRowStore = Entry.id row
    /\ sequence oneRowStore < Entry.id row
    /\ Entry.created_at row = JsDate.toISOString sampleClock.
Proof.
  destruct (first_submission_appends defaultBindings sampleClock secondSubmission
              oneRowStore (bodyOf [("email", JString "second@example.com")])
              secondPayload accepted twoRowStore)
    as (row & W1 & W2 & W3 & _ & _ & _ & _ & _ & _ & W4 & _).
  - vm_compute. reflexivity.
  - vm_compute. reflexivity.
  - vm_compute. intros [E|[]]. discriminate E.
  - vm_compute. reflexivity.
  - reflexivity.
  - exists row. repeat split; assumption.
Defined.

Lemma emails_stay_unique_and_lowercase_witness :
  uniqueEmails twoRowStore /\ lowercaseEmails twoRowStore.
Proof.
  apply (emails_stay_unique_and_lowercase defaultBindings sampleClock secondSubmission
           oneRowStore accepted twoRowStore).
  - repeat constructor. intros [].
  - repeat constructor.
  - vm_compute. reflexivity.
Defined.

Lemma rowids_never_reused_witness :
  rowidsIssued twoRowStore /\ sequence oneRowStore <= sequence twoRowStore.
Proof.
  apply (rowids_never_reused defaultBindings sampleClock secondSubmission
           oneRowStore accepted twoRowStore).
  - split; [repeat constructor; intros [] |].
    constructor; [vm_compute; discriminate | constructor].
  - vm_compute. reflexivity.
Defined.



Lemma other_addresses_do_not_matter_witness :
  responseOf (postWaitlist limitTwo sampleClock thirdSubmission twoRowStore)
  = responseOf (postWaitlist limitTwo sampleClock thirdSubmission threeRowStore).
Proof.
  apply (other_addresses_do_not_matter limitTwo sampleClock thirdSubmission
           twoRowStore threeRowStore).
  vm_compute. reflexivity.
Defined.

Lemma stamped_before_next_day :
  Forall (stampedBeforeDayOf nextDayClock) (rows twoRowStore).
Proof.
  repeat constructor; exists sampleClock;
    (split; [sample_year | split; vm_compute; reflexivity]).
Qed.

Lemma count_resets_at_midnight_witness :
  rowsOfIpOnUtcDayOf twoRowStore (getConnectingIp (headers thirdSubmission))
    nextDayClock = 0
  /\ exists db',
       postWaitlist limitTwo nextDayClock thirdSubmission twoRowStore
       = Responded accepted db'.
Proof.
  apply (count_resets_at_midnight limitTwo nextDayClock thirdSubmission twoRowStore
           (bodyOf [("email", JString "third@example.com")]) thirdPayload).
  - sample_clock.
  - sample_year.
  - exact stamped_before_next_day.
  - vm_compute. reflexivity.
  - vm_compute. reflexivity.
  - reflexivity.
Defined.

Lemma first_submission_counts_once_witness :
  rowsOfIpOnUtcDayOf twoRowStore (getConnectingIp (headers secondSubmission)) sampleClock
  = rowsOfIpOnUtcDayOf oneRowStore (getConnectingIp (headers secondSubmission))
      sampleClock + 1.
Proof.
  apply (first_submission_counts_once defaultBindings sampleClock secondSubmission
           oneRowStore (bodyOf [("email", JString "second@example.com")])
           secondPayload accepted twoRowStore).
  - sample_year.
  - vm_compute. reflexivity.
  - vm_compute. reflexivity.
  - vm_compute. intros [E|[]]. discriminate E.
  - vm_compute. reflexivity.
  - reflexivity.
Defined.


Lemma stamped_by_sample_clock : Forall (stampedBy sampleClock) (rows twoRowStore).
Proof.
  repeat constructor; exists sampleClock;
    (split; [sample_year | split; [vm_compute; reflexivity | lia]]).
Qed.

Lemma retry_after_wait_is_enough_witness :
  exists seconds,
    secondsUntilNextUtcDay sampleClock = Some seconds
    /\ JsDate.Day (sampleClock + 1000 * (seconds - 1)) = JsDate.Day sampleClock
    /\ JsDate.Day (sampleClock + 1000 * seconds) = JsDate.Day sampleClock + 1
    /\ (plausibleClock (sampleClock + 1000 * seconds) ->
        JsDate.fourDigitYearTime (sampleClock + 1000 * seconds) ->
        exists db',
          postWaitlist limitTwo (sampleClock + 1000 * seconds) thirdSubmission twoRowStore
          = Responded accepted db').
Proof.
  apply (retry_after_wait_is_enough limitTwo sampleClock thirdSubmission twoRowStore
           (bodyOf [("email", JString "third@example.com")]) thirdPayload).
  - sample_clock.
  - exact stamped_by_sample_clock.
  - vm_compute. reflexivity.
  - vm_compute. reflexivity.
  - reflexivity.
Defined.

Lemma unreadable_body_is_invalid_witness :
  postWaitlist defaultBindings sampleClock textRequest oneRowStore
  = Responded invalidPayload oneRowStore.
Proof.
  apply (unreadable_body_is_invalid defaultBindings sampleClock textRequest oneRowStore).
  right. split; vm_compute; reflexivity.
Defined.

Lemma form_and_json_agree_witness :
  postWaitlist defaultBindings nextDayClock
    (formRequest "5.6.7.8" (asFormEntries sampleFields)) oneRowStore
  = postWaitlist defaultBindings nextDayClock resubmission oneRowStore.
Proof.
  apply (form_and_json_agree defaultBindings nextDayClock
           (formRequest "5.6.7.8" (asFormEntries sampleFields)) resubmission
           oneRowStore sampleFields).
  - repeat constructor; [intros [E|[]]; discriminate E | intros []].
  - vm_compute. reflexivity.
  - vm_compute. reflexivity.
  - reflexivity.
  - vm_compute. reflexivity.
  - vm_compute. reflexivity.
  - intros name Hne. unfold formRequest, resubmission, jsonRequest. cbn [headers].
    now rewrite !lookup_insert_ne by congruence.
  - reflexivity.
Defined.

Lemma validated_payload_is_within_bounds_witness :
  isEmail (email resubmissionPayload) = true
  /\ 1 <= JsString.length (email resubmissionPayload) <= 320
  /\ (forall u, useCase resubmissionPayload = Some u ->
        1 <= JsString.length u <= 1200 /\ JsString.trim u = u).
Proof.
  destruct (validated_payload_is_within_bounds
              (bodyOf [("email", JString " User@Example.COM ");
                       ("use_case", JString "Try it out")]) resubmissionPayload)
    as (_ & _ & _ & _ & W1 & W2 & _ & W3 & _).
  - vm_compute. reflexivity.
  - split; [exact W1|]. split; [exact W2 | exact W3].
Defined.


Lemma forwarded_address_is_clean_witness :
  JsString.includes ","
    (getConnectingIp {[ "x-forwarded-for" := " 1.2.3.4 , 5.6.7.8" ]}) = false
  /\ JsString.trim (getConnectingIp {[ "x-forwarded-for" := " 1.2.3.4 , 5.6.7.8" ]})
     = getConnectingIp {[ "x-forwarded-for" := " 1.2.3.4 , 5.6.7.8" ]}.
Proof.
  destruct (forwarded_address_is_clean {[ "x-forwarded-for" := " 1.2.3.4 , 5.6.7.8" ]})
    as (W1 & _ & _ & W2).
  - left. vm_compute. reflexivity.
  - split; [exact W1 | exact W2].
Defined.

Lemma appended_proxies_do_not_matter_witness :
  getConnectingIp (<["x-forwarded-for" := " 1.2.3.4 " ++ String "," " 5.6.7.8"]> ∅)
  = getConnectingIp (<["x-forwarded-for" := " 1.2.3.4 "]> ∅)
  /\ getConnectingIp (<["x-forwarded-for" := " 1.2.3.4 "]> ∅) = JsString.trim " 1.2.3.4 ".
Proof.
  apply (appended_proxies_do_not_matter ∅ " 1.2.3.4 " " 5.6.7.8").
  - vm_compute. reflexivity.
  - vm_compute. reflexivity.
  - discriminate.
Defined.

Lemma timestamps_order_as_instants_witness :
  String.compare (JsDate.toISOString sampleClock) (JsDate.toISOString nextDayClock)
  = (sampleClock ?= nextDayClock)
  /\ (JsDate.toISOString sampleClock = JsDate.toISOString nextDayClock ->
      sampleClock = nextDayClock).
Proof.
  apply (timestamps_order_as_instants sampleClock nextDayClock); sample_year.
Defined.

Lemma resubmission_moves_the_row_witness :
  rowsOfIpOnUtcDayOf movedStore "1.2.3.4" sampleClock
  = rowsOfIpOnUtcDayOf oneRowStore "1.2.3.4" sampleClock - 1
  /\ rowsOfIpOnUtcDayOf movedStore (getConnectingIp (headers resubmission)) sampleClock
     = rowsOfIpOnUtcDayOf oneRowStore (getConnectingIp (headers resubmission))
         sampleClock + 1.
Proof.
  apply (resubmission_moves_the_row defaultBindings sampleClock resubmission oneRowStore
           (bodyOf [("email", JString " User@Example.COM ");
                    ("use_case", JString "Try it out")])
           resubmissionPayload storedRow "1.2.3.4" accepted movedStore).
  - repeat constructor. intros [].
  - vm_compute. reflexivity.
  - vm_compute. reflexivity.
  - now left.
  - vm_compute. reflexivity.
  - reflexivity.
  - vm_compute. discriminate.
  - vm_compute. reflexivity.
  - vm_compute. reflexivity.
  - reflexivity.
Defined.


Example unreadable_form_throws :
  postWaitlist defaultBindings sampleClock brokenFormRequest oneRowStore = Threw.
Proof. vm_compute. reflexivity. Qed.

Lemma surrounding_white_space_is_ignored_witness :
  normalizePayload
    (JObject (<["email" := JString (JsString.trim " a@b.co ")]>
                (list_to_map [("email", JString " a@b.co ")])
              : gmap string (JsValue (option Z))))
  = normalizePayload (bodyOf [("email", JString " a@b.co ")]).
Proof.
  apply (surrounding_white_space_is_ignored
           (list_to_map [("email", JString " a@b.co ")]) "email" " a@b.co ").
  vm_compute. reflexivity.
Defined.

Lemma alias_keys_are_interchangeable_witness :
  normalizePayload (bodyOf [("intent", JString "Try it out"); ("email", JString "a@b.co")])
  = normalizePayload
      (bodyOf [("description", JString "Try it out"); ("email", JString "a@b.co")]).
Proof.
  destruct (alias_keys_are_interchangeable
              (list_to_map [("email", JString "a@b.co")]
               : gmap string (JsValue (option Z))) "Try it out") as (W & _).
  apply (W "intent" "description").
  - vm_compute. tauto.
  - vm_compute. tauto.
  - intros key [<-|[<-|[<-|[<-|[]]]]]; vm_compute; reflexivity.
Defined.

Lemma cf_snapshot_is_clean_witness :
  getCfSnapshot firstSubmission = emptyCfSnapshot.
Proof.
  destruct (cf_snapshot_is_clean firstSubmission) as (W & _).
  apply W. reflexivity.
Defined.
